(** * MiFincaManager: the REST handlers, the relational schema and the
      Fincas page, embedded and checked against their specification.

    The development follows the layout of the repository:

    - [Js]: the JavaScript values and string built-ins the code relies on
      (truthiness, [typeof], [split], [toLowerCase], [includes]);
    - [Fincas]: the derived list of the Fincas page;
    - [Schema]: the table declarations of [schema.ts], as data;
    - [Store]: rows of any table, and what [ON DELETE CASCADE] does to them;
    - [User], [Animal], [Zod]: the rows the server reads and writes, and the
      two insert schemas it validates bodies with;
    - [Pg]: the statements the server sends, with the constraints the
      schema declares on the two tables they touch;
    - [Server]: the middleware and the four routes of the Express server;
    - [Relations], [Integrity]: the relations [schema.ts] declares, and
      what it means for the foreign keys of a database to hold;
    - [Pages]: the Register and Login pages, [App], and the server as the
      pages reach it;
    - [Sample]: a small farm to run all of this on.

    Definitions come first, the theorems follow. *)

From stdpp Require Import gmap strings list.
From Stdlib Require Import ZArith Ascii String Lia.

#[local] Set Warnings "-register-all".

(* ===================================================================== *)
(** * JavaScript values and built-ins *)
(* ===================================================================== *)

Module Js.

(** A JavaScript string is a sequence of UTF-16 code units. The model
    covers the strings whose code units are below 256: every [ascii] of a
    [string] is one code unit, and [String.length] is JavaScript's
    [.length]. The messages of the server are written as they are in the
    source; they are only ever compared as a whole. *)

(** What [JSON.parse] can produce. Of a number the code only ever observes
    whether it is zero (through truthiness), so numbers are integers. *)
Inductive json : Type :=
  | JNull
  | JBool (b : bool)
  | JNum (n : Z)
  | JStr (s : string)
  | JArr (l : list json)
  | JObj (m : gmap string json).

(** A property read yields a value or [undefined] ([None]). *)
Definition prop (o : json) (k : string) : option json :=
  match o with
  | JObj m => m !! k
  | _ => None
  end.

(** [!v] is [negb (truthy v)]. *)
Definition truthy (v : option json) : bool :=
  match v with
  | None => false
  | Some JNull => false
  | Some (JBool b) => b
  | Some (JNum n) => negb (n =? 0)%Z
  | Some (JStr s) => negb (String.eqb s "")
  | Some (JArr _) => true
  | Some (JObj _) => true
  end.

(** [typeof v]. *)
Definition typeof (v : option json) : string :=
  match v with
  | None => "undefined"
  | Some JNull => "object"
  | Some (JBool _) => "boolean"
  | Some (JNum _) => "number"
  | Some (JStr _) => "string"
  | Some (JArr _) => "object"
  | Some (JObj _) => "object"
  end.

(** [s.split(sep)] for a separator of one code unit. *)
Fixpoint split (sep : ascii) (s : string) : list string :=
  match s with
  | EmptyString => [EmptyString]
  | String c s' =>
      if Ascii.eqb c sep then EmptyString :: split sep s'
      else match split sep s' with
           | w :: ws => String c w :: ws
           | [] => [String c EmptyString]
           end
  end.

(** One code unit of [toLowerCase]: A-Z, and the capital letters of the
    Latin-1 supplement (U+00C0..U+00DE without the multiplication sign
    U+00D7), move up by 32; every other code unit below 256 is its own
    lower case. *)
Definition lower_unit (c : ascii) : ascii :=
  let n := N_of_ascii c in
  if ((65 <=? n) && (n <=? 90) ||
      (192 <=? n) && (n <=? 222) && negb (n =? 215))%N
  then ascii_of_N (n + 32)
  else c.

(** [s.toLowerCase()] on these strings, where it acts on each code unit by
    itself. Beyond them it does not (a capital sigma is lowered by its
    place in the word, and a lowering can change the length): what is
    proved of the page takes [toLowerCase] as it comes and relies on
    neither. *)
Fixpoint toLowerCase (s : string) : string :=
  match s with
  | EmptyString => EmptyString
  | String c s' => String (lower_unit c) (toLowerCase s')
  end.

(** [s.startsWith(t)]. *)
Fixpoint startsWith (s t : string) {struct t} : bool :=
  match t, s with
  | EmptyString, _ => true
  | String _ _, EmptyString => false
  | String b t', String a s' => Ascii.eqb a b && startsWith s' t'
  end.

(** [s.includes(t)]: [t] starts at some position of [s]. *)
Fixpoint includes (s t : string) : bool :=
  startsWith s t ||
  match s with
  | EmptyString => false
  | String _ s' => includes s' t
  end.

End Js.

(* ===================================================================== *)
(** * The Fincas page (client) *)
(* ===================================================================== *)

Module Fincas.
Import Js.

(** [types/index.ts]. *)
Record Finca := {
  id : Z;
  user_id : Z;
  name : string;
  location : string;
}.

(** The callback of [fincas.filter]. *)
Definition matches (searchTerm : string) (finca : Finca) : bool :=
  includes (toLowerCase (name finca)) (toLowerCase searchTerm) ||
  includes (toLowerCase (location finca)) (toLowerCase searchTerm).

Definition filteredFincas (fincas : list Finca) (searchTerm : string)
  : list Finca :=
  List.filter (matches searchTerm) fincas.

(** The words of the specification, to compare [filteredFincas] with:
    [t] occurs in [s] as a substring. *)
Definition is_substring (t s : string) : Prop :=
  ∃ pre post, s = pre +:+ t +:+ post.

(** A finca is wanted when the lowercased term occurs in its lowercased
    name or location. *)
Definition wanted (searchTerm : string) (finca : Finca) : Prop :=
  is_substring (toLowerCase searchTerm) (toLowerCase (name finca)) ∨
  is_substring (toLowerCase searchTerm) (toLowerCase (location finca)).

(** [selection P l k]: [k] is [l] with exactly the elements satisfying [P]
    kept, in the order of [l]. *)
Inductive selection (P : Finca → Prop) : list Finca → list Finca → Prop :=
  | selection_nil : selection P [] []
  | selection_keep f l k :
      P f → selection P l k → selection P (f :: l) (f :: k)
  | selection_drop f l k :
      ¬ P f → selection P l k → selection P (f :: l) k.

End Fincas.

(* ===================================================================== *)
(** * The relational schema ([schema.ts]) *)
(* ===================================================================== *)

Module Schema.

(** ** Table declarations, as data *)

Inductive ColumnType := uuid | serial | text | integer | date | timestamp.

Inductive OnDelete := cascade | no_action.

(** [references(() => table.column, { onDelete })]. *)
Record Reference := {
  ref_table : string;
  ref_column : string;
  ref_onDelete : OnDelete;
}.

Record Column := {
  sqlName : string;
  dataType : ColumnType;
  is_primaryKey : bool;
  is_notNull : bool;
  is_unique : bool;
  has_default : bool;
  foreignKey : option Reference;
}.

(** The column builders of drizzle, applied left to right with [|>]. *)
Definition column (ty : ColumnType) (n : string) : Column :=
  {| sqlName := n; dataType := ty; is_primaryKey := false;
     is_notNull := false; is_unique := false; has_default := false;
     foreignKey := None |}.

Definition primaryKey (c : Column) : Column :=
  {| sqlName := sqlName c; dataType := dataType c; is_primaryKey := true;
     is_notNull := true; is_unique := true; has_default := has_default c;
     foreignKey := foreignKey c |}.

Definition notNull (c : Column) : Column :=
  {| sqlName := sqlName c; dataType := dataType c;
     is_primaryKey := is_primaryKey c; is_notNull := true;
     is_unique := is_unique c; has_default := has_default c;
     foreignKey := foreignKey c |}.

Definition unique (c : Column) : Column :=
  {| sqlName := sqlName c; dataType := dataType c;
     is_primaryKey := is_primaryKey c; is_notNull := is_notNull c;
     is_unique := true; has_default := has_default c;
     foreignKey := foreignKey c |}.

(** [default(...)] and [defaultNow()]. *)
Definition default (c : Column) : Column :=
  {| sqlName := sqlName c; dataType := dataType c;
     is_primaryKey := is_primaryKey c; is_notNull := is_notNull c;
     is_unique := is_unique c; has_default := true;
     foreignKey := foreignKey c |}.

Definition references (t k : string) (a : OnDelete) (c : Column) : Column :=
  {| sqlName := sqlName c; dataType := dataType c;
     is_primaryKey := is_primaryKey c; is_notNull := is_notNull c;
     is_unique := is_unique c; has_default := has_default c;
     foreignKey :=
       Some {| ref_table := t; ref_column := k; ref_onDelete := a |} |}.

(** A [serial] column is an integer that is not null and defaults to the
    next value of its sequence. *)
Definition serial_column (n : string) : Column :=
  default (notNull (column serial n)).

Notation "c |> f" := (f c) (at level 45, left associativity, only parsing).

(** [pgTable(name, columns)]: the columns by their TypeScript key. *)
Record Table := {
  tableName : string;
  columns : list (string * Column);
}.

Definition pgTable (n : string) (cs : list (string * Column)) : Table :=
  {| tableName := n; columns := cs |}.

Definition createdAt_updatedAt : list (string * Column) :=
  [ ("createdAt", column timestamp "created_at" |> default);
    ("updatedAt", column timestamp "updated_at" |> default) ].

Definition users : Table :=
  pgTable "users"
    ([ ("id", column uuid "id" |> primaryKey |> default);
       ("username", column text "username" |> notNull |> unique);
       ("passwordHash", column text "password_hash" |> notNull);
       ("email", column text "email" |> notNull);
       ("nombre", column text "nombre");
       ("telefono", column text "telefono") ]
     ++ createdAt_updatedAt).

Definition animals : Table :=
  pgTable "animals"
    ([ ("id", serial_column "id" |> primaryKey);
       ("userId", column uuid "user_id" |> notNull
                  |> references "users" "id" cascade);
       ("codigoUnico", column text "codigo_unico" |> notNull |> unique);
       ("nombre", column text "nombre");
       ("raza", column text "raza");
       ("sexo", column text "sexo" |> notNull);
       ("fechaNacimiento", column date "fecha_nacimiento") ]
     ++ createdAt_updatedAt).

(** The two references every record table starts with. *)
Definition animalId : string * Column :=
  ("animalId", column integer "animal_id" |> notNull
               |> references "animals" "id" cascade).

Definition userId : string * Column :=
  ("userId", column uuid "user_id" |> notNull
             |> references "users" "id" cascade).

Definition weightRecords : Table :=
  pgTable "weight_records"
    ([ ("id", serial_column "id" |> primaryKey); animalId; userId;
       ("peso", column integer "peso" |> notNull);
       ("fecha", column date "fecha" |> notNull) ]
     ++ createdAt_updatedAt).

Definition healthRecords : Table :=
  pgTable "health_records"
    ([ ("id", serial_column "id" |> primaryKey); animalId; userId;
       ("fechaDiagnostico", column date "fecha_diagnostico" |> notNull);
       ("diagnostico", column text "diagnostico" |> notNull);
       ("tratamiento", column text "tratamiento");
       ("notasVeterinario", column text "notas_veterinario") ]
     ++ createdAt_updatedAt).

Definition vaccinations : Table :=
  pgTable "vaccinations"
    ([ ("id", serial_column "id" |> primaryKey); animalId; userId;
       ("tipoVacuna", column text "tipo_vacuna" |> notNull);
       ("fechaAplicacion", column date "fecha_aplicacion" |> notNull);
       ("reaccionesAdversas", column text "reacciones_adversas") ]
     ++ createdAt_updatedAt).

Definition pestControl : Table :=
  pgTable "pest_control"
    ([ ("id", serial_column "id" |> primaryKey); animalId; userId;
       ("tipoTratamiento", column text "tipo_tratamiento" |> notNull);
       ("fechaAplicacion", column date "fecha_aplicacion" |> notNull);
       ("resultados", column text "resultados") ]
     ++ createdAt_updatedAt).

Definition reproduction : Table :=
  pgTable "reproduction"
    ([ ("id", serial_column "id" |> primaryKey); animalId; userId;
       ("tipoEvento", column text "tipo_evento" |> notNull);
       ("fechaEvento", column date "fecha_evento" |> notNull);
       ("observaciones", column text "observaciones") ]
     ++ createdAt_updatedAt).

Definition feeding : Table :=
  pgTable "feeding"
    ([ ("id", serial_column "id" |> primaryKey); animalId; userId;
       ("tipoAlimento", column text "tipo_alimento" |> notNull);
       ("cantidad", column integer "cantidad" |> notNull);
       ("fecha", column date "fecha" |> notNull);
       ("observaciones", column text "observaciones") ]
     ++ createdAt_updatedAt).

Definition traceability : Table :=
  pgTable "traceability"
    ([ ("id", serial_column "id" |> primaryKey); animalId; userId;
       ("tipoEvento", column text "tipo_evento" |> notNull);
       ("fechaEvento", column date "fecha_evento" |> notNull);
       ("ubicacion", column text "ubicacion" |> notNull);
       ("detalles", column text "detalles") ]
     ++ createdAt_updatedAt).

Definition lotes : Table :=
  pgTable "lotes"
    ([ ("id", serial_column "id" |> primaryKey);
       ("nombre", column text "nombre" |> notNull);
       ("descripcion", column text "descripcion");
       ("fincaId", column integer "finca_id");
       userId ]
     ++ createdAt_updatedAt).

Definition loteAnimals : Table :=
  pgTable "lote_animals"
    ([ ("id", serial_column "id" |> primaryKey);
       ("loteId", column integer "lote_id" |> notNull
                  |> references "lotes" "id" cascade);
       animalId;
       ("fechaIngreso", column timestamp "fecha_ingreso" |> default);
       ("fechaSalida", column timestamp "fecha_salida");
       userId ]
     ++ createdAt_updatedAt).

(** The record tables, in the order of their declaration. *)
Definition recordTables : list Table :=
  [ weightRecords; healthRecords; vaccinations; pestControl; reproduction;
    feeding; traceability; lotes; loteAnimals ].

Definition schema : list Table := users :: animals :: recordTables.

(** [t] has a column named [col] that references [parent.key] with
    [onDelete: "cascade"]. *)
Definition cascades_to (col parent key : string) (t : Table) : bool :=
  existsb
    (λ kc : string * Column,
       String.eqb (sqlName kc.2) col &&
       match foreignKey kc.2 with
       | Some r =>
           String.eqb (ref_table r) parent && String.eqb (ref_column r) key &&
           match ref_onDelete r with cascade => true | no_action => false end
       | None => false
       end)
    (columns t).

Definition has_column (col : string) (t : Table) : bool :=
  existsb (λ kc : string * Column, String.eqb (sqlName kc.2) col) (columns t).

End Schema.

(* ===================================================================== *)
(** * What the database does with the declarations *)
(* ===================================================================== *)

(** ** Rows of any table, and [ON DELETE CASCADE] *)

Module Store.
Import Schema.

Inductive Value := VNull | VInt (z : Z) | VText (s : string).

#[global] Instance Value_eq_dec : EqDecision Value.
Proof. solve_decision. Defined.

(** A row maps SQL column names to values; a database maps table names to
    their rows. *)
Abbreviation Row := (gmap string Value).
Abbreviation Database := (gmap string (list Row)).

Definition rows (db : Database) (t : string) : list Row :=
  match db !! t with Some l => l | None => [] end.

Definition cell (r : Row) (col : string) : Value :=
  match r !! col with Some v => v | None => VNull end.

(** The foreign keys of the schema that point at [parent] with
    [ON DELETE CASCADE]: referencing table, referencing column, referenced
    column. *)
Definition cascading_children (sch : list Table) (parent : string)
  : list (string * string * string) :=
  flat_map
    (λ t : Table,
       flat_map
         (λ kc : string * Column,
            match foreignKey kc.2 with
            | Some r =>
                match ref_onDelete r with
                | cascade =>
                    if String.eqb (ref_table r) parent
                    then [(tableName t, sqlName kc.2, ref_column r)]
                    else []
                | no_action => []
                end
            | None => []
            end)
         (columns t))
    sch.

(** Row [r] references row [g] through [r.col = g.key]; a NULL references
    nothing. *)
Definition refers (col key : string) (g r : Row) : bool :=
  match cell r col with
  | VNull => false
  | v => bool_decide (v = cell g key)
  end.

Definition refers_any (col key : string) (gone : list Row) (r : Row) : bool :=
  existsb (λ g, refers col key g r) gone.

(** Propagate the deletion of [gone] to the referencing tables, one foreign
    key after the other, with [del] deleting in a referencing table. *)
Fixpoint cascade_into
    (del : Database → string → (Row → bool) → option Database)
    (gone : list Row) (children : list (string * string * string))
    (db : Database) : option Database :=
  match children with
  | [] => Some db
  | (child, col, key) :: rest =>
      match del db child (refers_any col key gone) with
      | Some db' => cascade_into del gone rest db'
      | None => None
      end
  end.

(** [DELETE FROM t WHERE doomed]: the doomed rows go, and so does every row
    that references one of them through a cascading foreign key, and so on.
    [fuel] bounds the length of such a chain of references; [None] means it
    was too small. *)
Fixpoint delete_where (fuel : nat) (sch : list Table) (db : Database)
    (t : string) (doomed : Row → bool) : option Database :=
  match fuel with
  | O => None
  | S fuel' =>
      let gone := List.filter doomed (rows db t) in
      let kept := List.filter (λ r, negb (doomed r)) (rows db t) in
      cascade_into (λ d, delete_where fuel' sch d) gone
        (cascading_children sch t) (<[t := kept]> db)
  end.

(** [fuel] is enough for a deletion from [t]: every chain of cascading
    references that starts at [t] is shorter than [fuel]. *)
Fixpoint chains_end (fuel : nat) (sch : list Table) (t : string) : bool :=
  match fuel with
  | O => false
  | S fuel' =>
      forallb (λ c : string * string * string, chains_end fuel' sch c.1.1)
        (cascading_children sch t)
  end.

(** A chain of references visits no table twice, so the number of tables
    is fuel enough. *)
Definition delete (db : Database) (t : string) (doomed : Row → bool)
  : option Database :=
  delete_where (List.length schema) schema db t doomed.

Definition has_id (k : Value) (r : Row) : bool := bool_decide (cell r "id" = k).

End Store.

(** ** The rows the server reads and writes *)

(** [typeof users.$inferSelect]. Timestamps are seconds since the epoch. *)
Module User.
Record t := {
  id : string;
  username : string;
  passwordHash : string;
  email : string;
  nombre : option string;
  telefono : option string;
  createdAt : option Z;
  updatedAt : option Z;
}.
End User.

(** [typeof animals.$inferSelect]. *)
Module Animal.
Record t := {
  id : Z;
  userId : string;
  codigoUnico : string;
  nombre : option string;
  raza : option string;
  sexo : string;
  fechaNacimiento : option string;
  createdAt : option Z;
  updatedAt : option Z;
}.
End Animal.

(* ===================================================================== *)
(** * Request validation (zod) *)
(* ===================================================================== *)

Module Zod.
Import Js.

Record ZodIssue := {
  code : string;
  path : list string;
  message : string;
}.

(** The result of [safeParse]. *)
Inductive SafeParse (A : Type) :=
  | success (data : A)
  | failure (errors : list ZodIssue).
Arguments success {A} data.
Arguments failure {A} errors.

(** The name zod gives to the type of a received value. *)
Definition parsedType (v : option json) : string :=
  match v with
  | None => "undefined"
  | Some JNull => "null"
  | Some (JBool _) => "boolean"
  | Some (JNum _) => "number"
  | Some (JStr _) => "string"
  | Some (JArr _) => "array"
  | Some (JObj _) => "object"
  end.

Definition invalid_type (p : list string) (expected : string)
    (v : option json) : ZodIssue :=
  {| code := "invalid_type"; path := p;
     message := match v with
                | None => "Required"
                | Some _ => "Expected " +:+ expected +:+ ", received "
                            +:+ parsedType v
                end |}.

Definition too_small (p : list string) (msg : string) : ZodIssue :=
  {| code := "too_small"; path := p; message := msg |}.

(** [z.string()] at key [k]. *)
Definition z_string (k : string) (v : option json)
  : list ZodIssue + string :=
  match v with
  | Some (JStr s) => inr s
  | _ => inl [invalid_type [k] "string" v]
  end.

(** [z.string().min(n, msg)] at key [k]. *)
Definition z_string_min (n : nat) (msg : string) (k : string)
    (v : option json) : list ZodIssue + string :=
  match v with
  | Some (JStr s) =>
      if (String.length s <? n)%nat then inl [too_small [k] msg] else inr s
  | _ => inl [invalid_type [k] "string" v]
  end.

(** [z.string().nullable().optional()] at key [k]: what a nullable text
    column becomes in an insert schema. *)
Definition z_string_nullish (k : string) (v : option json)
  : list ZodIssue + option string :=
  match v with
  | None => inr None
  | Some JNull => inr None
  | Some (JStr s) => inr (Some s)
  | _ => inl [invalid_type [k] "string" v]
  end.

Definition issues {A} (r : list ZodIssue + A) : list ZodIssue :=
  match r with
  | inl l => l
  | inr _ => []
  end.

(** [typeof insertUserSchema._type]. *)
Record InsertUser := {
  username : string;
  email : string;
  password : string;
}.

(** [createInsertSchema(users).pick({ username, email }).extend({ password
    })]: [username] and [email] are text columns that are not null and
    have no default, hence required strings; unknown keys are dropped;
    every field is checked and the issues are collected in key order. *)
Definition insertUserSchema (input : json) : SafeParse InsertUser :=
  match input with
  | JObj m =>
      let u := z_string "username" (m !! "username") in
      let e := z_string "email" (m !! "email") in
      let p := z_string_min 6 "Contraseña debe tener al menos 6 caracteres"
                 "password" (m !! "password") in
      match u, e, p with
      | inr u', inr e', inr p' =>
          success {| username := u'; email := e'; password := p' |}
      | _, _, _ => failure (issues u ++ issues e ++ issues p)
      end
  | _ => failure [invalid_type [] "object" (Some input)]
  end.

(** [typeof insertAnimalSchema._type]. *)
Record InsertAnimal := {
  codigoUnico : string;
  nombre : option string;
  raza : option string;
  sexo : string;
  fechaNacimiento : option string;
}.

(** [createInsertSchema(animals).omit({ id, userId, createdAt, updatedAt
    })]: the five remaining columns, the nullable ones optional. *)
Definition insertAnimalSchema (input : json) : SafeParse InsertAnimal :=
  match input with
  | JObj m =>
      let c := z_string "codigoUnico" (m !! "codigoUnico") in
      let n := z_string_nullish "nombre" (m !! "nombre") in
      let r := z_string_nullish "raza" (m !! "raza") in
      let s := z_string "sexo" (m !! "sexo") in
      let f := z_string_nullish "fechaNacimiento" (m !! "fechaNacimiento") in
      match c, n, r, s, f with
      | inr c', inr n', inr r', inr s', inr f' =>
          success {| codigoUnico := c'; nombre := n'; raza := r';
                     sexo := s'; fechaNacimiento := f' |}
      | _, _, _, _, _ =>
          failure (issues c ++ issues n ++ issues r ++ issues s ++ issues f)
      end
  | _ => failure [invalid_type [] "object" (Some input)]
  end.

End Zod.

(* ===================================================================== *)
(** * The server ([index.ts]) *)
(* ===================================================================== *)

(** The payload of a token: what [/api/login] signs, and the two claims
    [jwt.sign] adds for [expiresIn]. *)
Module JwtPayload.
Record t := {
  id : string;
  username : string;
  iat : Z;
  exp : Z;
}.
End JwtPayload.

(** What a request observes of the process and of the outside world. *)
Record Env := {
  (** [process.env.JWT_SECRET!]: set, as the assertion of the source says. *)
  JWT_SECRET : string;
  (** [Math.floor(Date.now() / 1000)], also the database's [now()]. *)
  now : Z;
  (** The value [gen_random_uuid()] returns to this request. *)
  gen_random_uuid : string;
  (** The salt [bcrypt.hash] draws for this request. *)
  salt : string;
  (** [Some m]: the statement of this request is rejected with message [m]
      for a reason outside the constraints modelled in [Pg] (connection
      lost, malformed uuid or date literal, ...). *)
  db_fault : option string;
}.

(** An awaited call returns or throws an [Error] with a message; for the
    statements of [Pg] the message is the one of PostgreSQL, which reaches
    a handler through [query_error]. *)
Inductive Outcome (A : Type) :=
  | returned (a : A)
  | thrown (message : string).
Arguments returned {A} a.
Arguments thrown {A} message.

Module Pg.

(** The two tables the server touches, and the sequence behind
    [animals.id]. *)
Record Db := {
  users : list User.t;
  animals : list Animal.t;
  animals_id_seq : Z;
}.

(** The database before the first request. *)
Definition initial : Db :=
  {| users := []; animals := []; animals_id_seq := 0 |}.

Definition dquote : string := String "034"%char EmptyString.

(** The message of PostgreSQL for a unique violation (SQLSTATE 23505). *)
Definition unique_violation (constraint : string) : string :=
  "duplicate key value violates unique constraint "
  +:+ dquote +:+ constraint +:+ dquote.

(** The message for a foreign-key violation (SQLSTATE 23503). *)
Definition foreign_key_violation (table constraint : string) : string :=
  "insert or update on table " +:+ dquote +:+ table +:+ dquote
  +:+ " violates foreign key constraint " +:+ dquote +:+ constraint
  +:+ dquote.

(** [db.select().from(users).where(eq(users.username, u))]. *)
Definition select_users_by_username (env : Env) (db : Db) (u : string)
  : Outcome (list User.t) :=
  match db_fault env with
  | Some m => thrown m
  | None =>
      returned (List.filter (λ r, String.eqb (User.username r) u) (users db))
  end.

(** [db.insert(users).values({ username, email, passwordHash })
    .returning()] as PostgreSQL executes it: the other columns take their
    defaults; the primary key and the unique constraint on [username] are
    enforced, and a rejection carries PostgreSQL's message. *)
Definition insert_users (env : Env) (db : Db)
    (username email passwordHash : string) : Outcome User.t * Db :=
  match db_fault env with
  | Some m => (thrown m, db)
  | None =>
      let row :=
        {| User.id := gen_random_uuid env;
           User.username := username;
           User.passwordHash := passwordHash;
           User.email := email;
           User.nombre := None;
           User.telefono := None;
           User.createdAt := Some (now env);
           User.updatedAt := Some (now env) |} in
      if existsb (λ r, String.eqb (User.id r) (User.id row)) (users db)
      then (thrown (unique_violation "users_pkey"), db)
      else if existsb (λ r, String.eqb (User.username r) username) (users db)
      then (thrown (unique_violation "users_username_unique"), db)
      else (returned row,
            {| users := users db ++ [row];
               animals := animals db;
               animals_id_seq := animals_id_seq db |})
  end.

(** [db.select().from(animals).where(eq(animals.userId, id))]. *)
Definition select_animals_by_userId (env : Env) (db : Db) (id : string)
  : Outcome (list Animal.t) :=
  match db_fault env with
  | Some m => thrown m
  | None =>
      returned (List.filter (λ r, String.eqb (Animal.userId r) id) (animals db))
  end.

(** What [/api/animals] inserts: the validated fields and [userId]. *)
Record NewAnimal := {
  userId : string;
  codigoUnico : string;
  nombre : option string;
  raza : option string;
  sexo : string;
  fechaNacimiento : option string;
}.

(** [db.insert(animals).values(newAnimal).returning()] as PostgreSQL
    executes it: [id] is the next value of the sequence, which stays
    consumed when a constraint then rejects the row; the primary key, the
    unique constraint on [codigo_unico] and the foreign key to [users] are
    enforced. *)
Definition insert_animals (env : Env) (db : Db) (v : NewAnimal)
  : Outcome Animal.t * Db :=
  match db_fault env with
  | Some m => (thrown m, db)
  | None =>
      let id := (animals_id_seq db + 1)%Z in
      let row :=
        {| Animal.id := id;
           Animal.userId := userId v;
           Animal.codigoUnico := codigoUnico v;
           Animal.nombre := nombre v;
           Animal.raza := raza v;
           Animal.sexo := sexo v;
           Animal.fechaNacimiento := fechaNacimiento v;
           Animal.createdAt := Some (now env);
           Animal.updatedAt := Some (now env) |} in
      let advanced :=
        {| users := users db; animals := animals db;
           animals_id_seq := id |} in
      if existsb (λ r, (Animal.id r =? id)%Z) (animals db)
      then (thrown (unique_violation "animals_pkey"), advanced)
      else if existsb (λ r, String.eqb (Animal.codigoUnico r) (codigoUnico v))
                (animals db)
      then (thrown (unique_violation "animals_codigo_unico_unique"), advanced)
      else if negb (existsb (λ u, String.eqb (User.id u) (userId v)) (users db))
      then (thrown (foreign_key_violation "animals"
                      "animals_user_id_users_id_fk"), advanced)
      else (returned row,
            {| users := users db; animals := animals db ++ [row];
               animals_id_seq := id |})
  end.

(** The statements a handler sends to the database. *)
Inductive Statement :=
  | select_from_users (username : string)
  | insert_into_users (username email passwordHash : string)
  | select_from_animals (userId : string)
  | insert_into_animals (v : NewAnimal).

(** The constraints the schema declares on the two tables. *)
Record consistent (db : Db) : Prop := {
  users_pkey : NoDup (map User.id (users db));
  users_username_unique : NoDup (map User.username (users db));
  animals_pkey : NoDup (map Animal.id (animals db));
  animals_codigo_unico_unique : NoDup (map Animal.codigoUnico (animals db));
  animals_user_id_fk :
    ∀ a, a ∈ animals db → Animal.userId a ∈ map User.id (users db);
}.

End Pg.

(** The libraries the server calls and whose code is not part of the
    repository: bcryptjs, the encoding of jsonwebtoken, the text the
    database driver sends for a parameter that is not a string, and the
    error drizzle-orm throws when PostgreSQL rejects a statement. *)
Class Externals := {
  (** [bcrypt.hash(password, rounds)] with the salt it drew. *)
  bcrypt_hash : string → string → string;
  (** [bcrypt.compare(password, hash)] on two strings. *)
  bcrypt_compare : string → string → bool;
  (** The signed compact encoding of a payload under a secret. *)
  jwt_encode : string → JwtPayload.t → string;
  (** The payload of a token whose signature checks under the secret. *)
  jwt_decode : string → string → option JwtPayload.t;
  (** The text the database driver sends for a query parameter that is not
      a string. *)
  driver_text : option Js.json → string;
  (** [err.message] of the error an awaited query throws, from the
      statement and the message PostgreSQL rejected it with. No version of
      drizzle-orm is fixed by the sources: before 0.44 the error of
      postgres.js reaches the handler as it is, and the message is
      PostgreSQL's; from 0.44 on the handler catches a [DrizzleQueryError]
      whose message is made of the text and the parameters of the query,
      with PostgreSQL's error as its [cause]. *)
  query_error : Pg.Statement → string → string;
}.

Module Server.
Import Js Zod Pg.

Record Request := {
  (** [req.headers["authorization"]]. *)
  authorization : option string;
  (** [req.body] as [express.json()] leaves it: the parsed JSON text (an
      object or an array), or the empty object when there was none. *)
  body : json;
  (** [req.user], absent until [authenticateToken] sets it. *)
  user : option JwtPayload.t;
}.

(** The objects the handlers pass to [res.json]. *)
Inductive Payload :=
  | error (message : string)
  | errors (issues : list ZodIssue)
  | message_user (message : string) (user : User.t)
  | token (t : string)
  | animals_array (rows : list Animal.t)
  | message_animal (message : string) (animal : Animal.t).

Record Response := {
  status : Z;
  payload : Payload;
}.

(** What handling a request amounts to: the response, the database it
    leaves, and the statements it sent. *)
Record Result := {
  response : Response;
  db_after : Db;
  statements : list Statement;
}.

(** A middleware answers, or calls [next()] on the request it annotated. *)
Inductive Flow :=
  | responded (r : Response)
  | next (req : Request).

Definition respond (code : Z) (b : Payload) (db : Db)
    (sent : list Statement) : Result :=
  {| response := {| status := code; payload := b |};
     db_after := db; statements := sent |}.

Section WithExternals.
Context `{Externals}.

(** [jwt.sign({ id, username }, secret, { expiresIn })]: [iat] is the
    clock and [exp] is [iat] plus the span, in seconds. *)
Definition jwt_sign (secret : string) (clock : Z) (id username : string)
    (expiresIn : Z) : string :=
  jwt_encode secret
    {| JwtPayload.id := id; JwtPayload.username := username;
       JwtPayload.iat := clock; JwtPayload.exp := (clock + expiresIn)%Z |}.

(** ["1h"], in seconds. *)
Definition one_hour : Z := 3600.

(** [jwt.verify(token, secret)]: the signature must check and the token
    must not have expired; [None] is the [err] of the callback. *)
Definition jwt_verify (secret : string) (clock : Z) (t : string)
  : option JwtPayload.t :=
  match jwt_decode secret t with
  | Some p => if (JwtPayload.exp p <=? clock)%Z then None else Some p
  | None => None
  end.

(** [await bcrypt.compare(password, hash)] on whatever the body holds:
    bcryptjs rejects an argument that is not a string. *)
Definition bcrypt_compare_any (password : option json) (hash : string)
  : Outcome bool :=
  match password with
  | Some (JStr p) => returned (bcrypt_compare p hash)
  | other => thrown ("Illegal arguments: " +:+ typeof other +:+ ", string")
  end.

(** The text of a parameter compared with a text column. *)
Definition text_param (v : option json) : string :=
  match v with
  | Some (JStr s) => s
  | other => driver_text other
  end.

(** [req.headers["authorization"]?.split(" ")[1]]. *)
Definition header_token (req : Request) : option string :=
  match authorization req with
  | Some h => split " "%char h !! 1%nat
  | None => None
  end.

Definition authenticateToken (env : Env) (req : Request) : Flow :=
  match header_token req with
  | None => responded {| status := 401; payload := error "Token requerido" |}
  | Some "" => responded {| status := 401; payload := error "Token requerido" |}
  | Some t =>
      match jwt_verify (JWT_SECRET env) (now env) t with
      | None =>
          responded {| status := 403; payload := error "Token inválido" |}
      | Some u =>
          next {| authorization := authorization req; body := body req;
                  user := Some u |}
      end
  end.

(** [app.METHOD(path, authenticateToken, handler)]. *)
Definition behind_authenticateToken
    (handler : Env → Db → Request → Result)
    (env : Env) (db : Db) (req : Request) : Result :=
  match authenticateToken env req with
  | responded r => {| response := r; db_after := db; statements := [] |}
  | next req' => handler env db req'
  end.

(** The handler of [POST /api/signup]. *)
Definition signup (env : Env) (db : Db) (req : Request) : Result :=
  match insertUserSchema (body req) with
  | failure errs => respond 400 (errors errs) db []
  | success data =>
      let hashedPassword := bcrypt_hash (salt env) (password data) in
      let sent := [insert_into_users (username data) (email data)
                     hashedPassword] in
      match insert_users env db (username data) (email data)
              hashedPassword with
      | (returned row, db') =>
          respond 201 (message_user "Usuario creado" row) db' sent
      | (thrown m, db') =>
          let err_message :=
            query_error (insert_into_users (username data) (email data)
                           hashedPassword) m in
          if includes err_message
               "duplicate key value violates unique constraint"
          then respond 409
                 (error "El nombre de usuario o email ya existe.") db' sent
          else respond 500 (error err_message) db' sent
      end
  end.

(** The handler of [POST /api/login]. *)
Definition login (env : Env) (db : Db) (req : Request) : Result :=
  let username := prop (body req) "username" in
  let password := prop (body req) "password" in
  if negb (truthy username) || negb (truthy password)
  then respond 400 (error "Usuario y contraseña requeridos") db []
  else
    let sent := [select_from_users (text_param username)] in
    match select_users_by_username env db (text_param username) with
    | thrown m =>
        respond 500
          (error (query_error (select_from_users (text_param username)) m))
          db sent
    | returned [] => respond 401 (error "Credenciales inválidas") db sent
    | returned (user :: _) =>
        match bcrypt_compare_any password (User.passwordHash user) with
        | thrown m => respond 500 (error m) db sent
        | returned false =>
            respond 401 (error "Credenciales inválidas") db sent
        | returned true =>
            respond 200
              (token (jwt_sign (JWT_SECRET env) (now env)
                        (User.id user) (User.username user) one_hour))
              db sent
        end
    end.

(** The handler of [GET /api/animals], after the middleware. *)
Definition list_animals (env : Env) (db : Db) (req : Request) : Result :=
  match user req with
  | None => respond 401 (error "Usuario no autenticado.") db []
  | Some u =>
      if String.eqb (JwtPayload.id u) ""
      then respond 401 (error "Usuario no autenticado.") db []
      else
        let sent := [select_from_animals (JwtPayload.id u)] in
        match select_animals_by_userId env db (JwtPayload.id u) with
        | returned rows => respond 200 (animals_array rows) db sent
        | thrown m =>
            respond 500
              (error (query_error (select_from_animals (JwtPayload.id u)) m))
              db sent
        end
  end.

(** [{ ...parsedAnimal.data, userId: req.user.id }]. *)
Definition with_userId (data : InsertAnimal) (id : string) : NewAnimal :=
  {| Pg.userId := id;
     Pg.codigoUnico := Zod.codigoUnico data;
     Pg.nombre := Zod.nombre data;
     Pg.raza := Zod.raza data;
     Pg.sexo := Zod.sexo data;
     Pg.fechaNacimiento := Zod.fechaNacimiento data |}.

(** The handler of [POST /api/animals], after the middleware. *)
Definition create_animal (env : Env) (db : Db) (req : Request) : Result :=
  match user req with
  | None => respond 401 (error "Usuario no autenticado.") db []
  | Some u =>
      if String.eqb (JwtPayload.id u) ""
      then respond 401 (error "Usuario no autenticado.") db []
      else
        match insertAnimalSchema (body req) with
        | failure errs => respond 400 (errors errs) db []
        | success data =>
            let newAnimal := with_userId data (JwtPayload.id u) in
            let sent := [insert_into_animals newAnimal] in
            match insert_animals env db newAnimal with
            | (returned row, db') =>
                respond 201
                  (message_animal "Animal creado exitosamente" row) db' sent
            | (thrown m, db') =>
                respond 500
                  (error (query_error (insert_into_animals newAnimal) m))
                  db' sent
            end
        end
  end.

(** The four routes. *)
Definition POST_api_signup := signup.
Definition POST_api_login := login.
Definition GET_api_animals := behind_authenticateToken list_animals.
Definition POST_api_animals := behind_authenticateToken create_animal.

Definition routes : list (Env → Db → Request → Result) :=
  [POST_api_signup; POST_api_login; GET_api_animals; POST_api_animals].

(** The databases the server can bring about, one request after the other,
    whatever the requests and whatever they observe. *)
Inductive reachable : Db → Prop :=
  | reachable_initial : reachable initial
  | reachable_request route env db req :
      In route routes → reachable db →
      reachable (db_after (route env db req)).

End WithExternals.

End Server.

(* ===================================================================== *)
(** * More of the schema: relations and referential integrity *)
(* ===================================================================== *)

(** The [relations(...)] declarations of [schema.ts]. *)
Module Relations.
Import Schema.

(** [one(target, { fields: [t.field], references: [target.reference] })]
    and [many(target)], with columns named by their TypeScript key. *)
Inductive Relation :=
  | one (target : Table) (field reference : string)
  | many (target : Table).

Definition usersRelations : list (string * Relation) :=
  [ ("animals", many animals); ("weightRecords", many weightRecords);
    ("healthRecords", many healthRecords); ("vaccinations", many vaccinations);
    ("pestControl", many pestControl); ("reproduction", many reproduction);
    ("feeding", many feeding); ("traceability", many traceability);
    ("lotes", many lotes); ("loteAnimals", many loteAnimals) ].

Definition animalsRelations : list (string * Relation) :=
  [ ("user", one users "userId" "id");
    ("weightRecords", many weightRecords);
    ("healthRecords", many healthRecords); ("vaccinations", many vaccinations);
    ("pestControl", many pestControl); ("reproduction", many reproduction);
    ("feeding", many feeding); ("traceability", many traceability);
    ("loteAnimals", many loteAnimals) ].

(** What the seven record tables of an animal all declare. *)
Definition animal_and_user : list (string * Relation) :=
  [ ("animal", one animals "animalId" "id"); ("user", one users "userId" "id") ].

Definition weightRecordsRelations := animal_and_user.
Definition healthRecordsRelations := animal_and_user.
Definition vaccinationsRelations := animal_and_user.
Definition pestControlRelations := animal_and_user.
Definition reproductionRelations := animal_and_user.
Definition feedingRelations := animal_and_user.
Definition traceabilityRelations := animal_and_user.

Definition lotesRelations : list (string * Relation) :=
  [ ("user", one users "userId" "id"); ("loteAnimals", many loteAnimals) ].

Definition loteAnimalsRelations : list (string * Relation) :=
  [ ("lote", one lotes "loteId" "id"); ("animal", one animals "animalId" "id");
    ("user", one users "userId" "id") ].

(** Every table with the relations declared for it. *)
Definition declared : list (Table * list (string * Relation)) :=
  [ (users, usersRelations); (animals, animalsRelations);
    (weightRecords, weightRecordsRelations);
    (healthRecords, healthRecordsRelations);
    (vaccinations, vaccinationsRelations);
    (pestControl, pestControlRelations);
    (reproduction, reproductionRelations);
    (feeding, feedingRelations);
    (traceability, traceabilityRelations);
    (lotes, lotesRelations); (loteAnimals, loteAnimalsRelations) ].

(** The column a table declares under a TypeScript key. *)
Definition column_of (t : Table) (key : string) : option Column :=
  match List.find (λ kc : string * Column, String.eqb kc.1 key) (columns t) with
  | Some kc => Some kc.2
  | None => None
  end.

(** Column [c] of a table references column [reference] of [target]. *)
Definition points_at (c : Column) (target : Table) (reference : string) : bool :=
  match foreignKey c, column_of target reference with
  | Some fk, Some k =>
      String.eqb (ref_table fk) (tableName target) &&
      String.eqb (ref_column fk) (sqlName k)
  | _, _ => false
  end.

(** The relations declared for a table. *)
Definition relations_of (t : Table) : list (string * Relation) :=
  match List.find (λ d : Table * list (string * Relation),
                     String.eqb (tableName d.1) (tableName t)) declared with
  | Some d => d.2
  | None => []
  end.

(** A [one] is backed by a foreign key of its own table; a [many] by a [one]
    that the target declares back. *)
Definition backed (t : Table) (r : Relation) : bool :=
  match r with
  | one target field reference =>
      match column_of t field with
      | Some c => points_at c target reference
      | None => false
      end
  | many target =>
      existsb
        (λ nr : string * Relation,
           match nr.2 with
           | one back _ _ => String.eqb (tableName back) (tableName t)
           | many _ => false
           end)
        (relations_of target)
  end.

(** The foreign key under TypeScript key [key] of [t] is declared as a [one]
    of [t], and the table it references declares a [many] of [t]. *)
Definition related (t : Table) (key : string) (c : Column) : bool :=
  match foreignKey c with
  | None => true
  | Some fk =>
      existsb
        (λ nr : string * Relation,
           match nr.2 with
           | one target field _ =>
               String.eqb field key &&
               String.eqb (tableName target) (ref_table fk)
           | many _ => false
           end)
        (relations_of t) &&
      existsb
        (λ d : Table * list (string * Relation),
           String.eqb (tableName d.1) (ref_table fk) &&
           existsb
             (λ nr : string * Relation,
                match nr.2 with
                | many target => String.eqb (tableName target) (tableName t)
                | one _ _ _ => false
                end)
             d.2)
        declared
  end.

End Relations.

(** Referential integrity of a database of any tables. *)
Module Integrity.
Import Schema Store.

(** The foreign keys a schema declares: referencing table, referencing
    column, and what it references. *)
Definition foreign_keys (sch : list Table)
  : list (string * string * Reference) :=
  flat_map
    (λ t : Table,
       flat_map
         (λ kc : string * Column,
            match foreignKey kc.2 with
            | Some r => [(tableName t, sqlName kc.2, r)]
            | None => []
            end)
         (columns t))
    sch.

Definition all_cascade (sch : list Table) : bool :=
  forallb
    (λ fk : string * string * Reference,
       match ref_onDelete fk.2 with cascade => true | no_action => false end)
    (foreign_keys sch).

(** Every value of a referencing column that is not NULL is the key of a
    row of the referenced table. *)
Definition holds (sch : list Table) (db : Database) : Prop :=
  ∀ child col r row,
    In (child, col, r) (foreign_keys sch) →
    In row (rows db child) →
    cell row col ≠ VNull →
    ∃ g, In g (rows db (ref_table r)) ∧ cell g (ref_column r) = cell row col.

(** From [db] to [db'], no row that stays loses what it references: a row
    of [db'] whose reference had a target in [db] has one in [db']. *)
Definition survives (sch : list Table) (db db' : Database) : Prop :=
  ∀ child col r row g,
    In (child, col, r) (foreign_keys sch) →
    In row (rows db' child) → cell row col ≠ VNull →
    In g (rows db (ref_table r)) → cell g (ref_column r) = cell row col →
    ∃ g', In g' (rows db' (ref_table r)) ∧
          cell g' (ref_column r) = cell row col.

(** [holds], computed. *)
Definition check (sch : list Table) (db : Database) : bool :=
  forallb
    (λ fk : string * string * Reference,
       forallb
         (λ row,
            match cell row fk.1.2 with
            | VNull => true
            | v =>
                existsb (λ g, bool_decide (cell g (ref_column fk.2) = v))
                  (rows db (ref_table fk.2))
            end)
         (rows db fk.1.1))
    (foreign_keys sch).

(** The record tables that reference an animal. *)
Definition tables_of_an_animal : list string :=
  [ "weight_records"; "health_records"; "vaccinations"; "pest_control";
    "reproduction"; "feeding"; "traceability"; "lote_animals" ].

End Integrity.

(* ===================================================================== *)
(** * The pages of the client *)
(* ===================================================================== *)

Module Pages.
Import Js Zod Server.

(** What a page does as the outcome of a handler. *)
Inductive Effect :=
  | setMessage (m : string)
  | navigate (to : string)
  | localStorage_setItem (key value : string)
  | localStorage_removeItem (key : string)
  | setToken (t : string).

(** [await fetch(...)] followed by [await response.json()]: the parsed
    body of the answer, or a rejection (no connection, or no JSON in the
    answer). *)
Inductive Fetched :=
  | rejected
  | resolved (data : Payload).

(** [fetch(url, { method, headers: { Authorization }, body })]. *)
Definition Fetch : Type := string → string → option string → json → Fetched.

(** [data.message], [data.error] and [data.token] of a parsed answer. *)
Definition data_message (data : Payload) : option string :=
  match data with
  | message_user m _ => Some m
  | message_animal m _ => Some m
  | _ => None
  end.

Definition data_error (data : Payload) : option string :=
  match data with
  | error m => Some m
  | _ => None
  end.

Definition data_token (data : Payload) : option string :=
  match data with
  | token t => Some t
  | _ => None
  end.

(** [a || b] where [a] is a string or [undefined]. *)
Definition or_else (a : option string) (b : string) : string :=
  match a with
  | None => b
  | Some "" => b
  | Some s => s
  end.

(** [typeof registerSchema._type], and that of [loginSchema]. *)
Record Credentials := {
  username : string;
  password : string;
}.

(** [{ username, password }]. *)
Definition credentials_object (u p : string) : json :=
  JObj (<["username" := JStr u]> (<["password" := JStr p]> ∅)).

(** [z.object({ username: z.string().min(3, ...), password:
    z.string().min(6, ...) })] of the Register page. *)
Definition registerSchema (input : json) : SafeParse Credentials :=
  match input with
  | JObj m =>
      let u := z_string_min 3 "Usuario debe tener al menos 3 caracteres"
                 "username" (m !! "username") in
      let p := z_string_min 6 "Contraseña debe tener al menos 6 caracteres"
                 "password" (m !! "password") in
      match u, p with
      | inr u', inr p' => success {| username := u'; password := p' |}
      | _, _ => failure (issues u ++ issues p)
      end
  | _ => failure [invalid_type [] "object" (Some input)]
  end.

(** The schema of the Login page, declared with the same text. *)
Definition loginSchema (input : json) : SafeParse Credentials :=
  match input with
  | JObj m =>
      let u := z_string_min 3 "Usuario debe tener al menos 3 caracteres"
                 "username" (m !! "username") in
      let p := z_string_min 6 "Contraseña debe tener al menos 6 caracteres"
                 "password" (m !! "password") in
      match u, p with
      | inr u', inr p' => success {| username := u'; password := p' |}
      | _, _ => failure (issues u ++ issues p)
      end
  | _ => failure [invalid_type [] "object" (Some input)]
  end.

(** [setMessage(error.errors[0].message)] in the [catch] of a [ZodError];
    a [ZodError] has at least one issue. *)
Definition first_issue (errs : list ZodIssue) : list Effect :=
  match errs with
  | e :: _ => [setMessage (message e)]
  | [] => []
  end.

(** [handleRegister] of the Register page, on the two fields of the form. *)
Definition handleRegister (fetch : Fetch) (u p : string) : list Effect :=
  match registerSchema (credentials_object u p) with
  | failure errs => first_issue errs
  | success result =>
      match fetch "/api/signup" "POST" None
              (credentials_object (username result) (password result)) with
      | rejected => [setMessage "Error en la conexión"]
      | resolved data =>
          match data_message data with
          | Some "Usuario creado" => [navigate "/login"]
          | _ => [setMessage (or_else (data_error data) "Error desconocido")]
          end
      end
  end.

(** [handleLogin] of the Login page. *)
Definition handleLogin (fetch : Fetch) (u p : string) : list Effect :=
  match loginSchema (credentials_object u p) with
  | failure errs => first_issue errs
  | success result =>
      match fetch "/api/login" "POST" None
              (credentials_object (username result) (password result)) with
      | rejected => [setMessage "Error en la conexión"]
      | resolved data =>
          match data_token data with
          | Some "" | None =>
              [setMessage (or_else (data_error data) "Error desconocido")]
          | Some t =>
              [localStorage_setItem "token" t; setToken t; navigate "/fincas"]
          end
      end
  end.

(** What [App] renders. *)
Inductive Element :=
  | Login
  | Register
  | Fincas (token : string)
  | Navigate (to : string)
  | nothing.

(** The [Routes] of [App], for the token in its state ([null] is [None])
    and the path of the location. *)
Definition App (token : option string) (path : string) : Element :=
  if String.eqb path "/login" then Login
  else if String.eqb path "/register" then Register
  else if String.eqb path "/fincas" then
    match token with
    | None => Navigate "/login"
    | Some "" => Navigate "/login"
    | Some t => Fincas t
    end
  else if String.eqb path "/" then Navigate "/login"
  else nothing.

(** What the pages share in the browser: the item [token] of
    [localStorage], the [token] state of [App], and the location. *)
Record Browser := {
  stored_token : option string;
  app_token : option string;
  location : string;
}.

Definition perform (b : Browser) (e : Effect) : Browser :=
  match e with
  | setMessage _ => b
  | navigate to =>
      {| stored_token := stored_token b; app_token := app_token b;
         location := to |}
  | localStorage_setItem key value =>
      if String.eqb key "token"
      then {| stored_token := Some value; app_token := app_token b;
              location := location b |}
      else b
  | localStorage_removeItem key =>
      if String.eqb key "token"
      then {| stored_token := None; app_token := app_token b;
              location := location b |}
      else b
  | setToken t =>
      {| stored_token := stored_token b; app_token := Some t;
         location := location b |}
  end.

Definition run (b : Browser) (effects : list Effect) : Browser :=
  fold_left perform effects b.

(** Loading the application anew: [App] takes its state from
    [localStorage.getItem('token')]. *)
Definition reload (b : Browser) : Browser :=
  {| stored_token := stored_token b; app_token := stored_token b;
     location := location b |}.

(** What the browser shows. *)
Definition shown (b : Browser) : Element := App (app_token b) (location b).

(** [handleLogout] of the Fincas page. *)
Definition handleLogout : list Effect :=
  [localStorage_removeItem "token"; navigate "/login"].

(** [`Bearer ${token}`], the Authorization header of every request of the
    Fincas page. *)
Definition Bearer (token : string) : string := "Bearer " +:+ token.

Section WithExternals.
Context `{Externals}.

(** The Express application as the pages reach it: the four routes, on the
    database as it stands; on any other path Express answers with a page
    that is no JSON. *)
Definition backend (env : Env) (db : Pg.Db) : Fetch :=
  λ url method auth b,
    let req := {| authorization := auth; body := b; user := None |} in
    if String.eqb url "/api/signup" && String.eqb method "POST"
    then resolved (payload (response (POST_api_signup env db req)))
    else if String.eqb url "/api/login" && String.eqb method "POST"
    then resolved (payload (response (POST_api_login env db req)))
    else if String.eqb url "/api/animals" && String.eqb method "GET"
    then resolved (payload (response (GET_api_animals env db req)))
    else if String.eqb url "/api/animals" && String.eqb method "POST"
    then resolved (payload (response (POST_api_animals env db req)))
    else rejected.

End WithExternals.

End Pages.

(* ===================================================================== *)
(** * Sample data *)
(* ===================================================================== *)

(** Stand-ins for the libraries, and a small database, to run the handlers
    on. The stand-in [toy] is of a drizzle-orm before 0.44, which hands on
    the error of the driver; [toy_0_44] below wraps it. *)
Module Sample.
Import Js Pg Server.

Definition ana : User.t :=
  {| User.id := "7d9f0c7e-0001"; User.username := "ana";
     User.passwordHash := "salt$1terces"; User.email := "ana@finca.cr";
     User.nombre := None; User.telefono := None;
     User.createdAt := Some 1000%Z; User.updatedAt := Some 1000%Z |}.

Definition luis : User.t :=
  {| User.id := "7d9f0c7e-0002"; User.username := "luis";
     User.passwordHash := "salt$2terces"; User.email := "luis@finca.cr";
     User.nombre := None; User.telefono := None;
     User.createdAt := Some 1100%Z; User.updatedAt := Some 1100%Z |}.

Definition cow (n : Z) (owner : User.t) (codigo : string) : Animal.t :=
  {| Animal.id := n; Animal.userId := User.id owner;
     Animal.codigoUnico := codigo; Animal.nombre := None;
     Animal.raza := Some "Brahman"; Animal.sexo := "H";
     Animal.fechaNacimiento := None;
     Animal.createdAt := Some 1200%Z; Animal.updatedAt := Some 1200%Z |}.

Definition farm : Db :=
  {| users := [ana; luis];
     animals := [cow 1 ana "CR-001"; cow 2 luis "CR-002"; cow 3 ana "CR-003"];
     animals_id_seq := 3 |}.

Definition ana_payload : JwtPayload.t :=
  {| JwtPayload.id := User.id ana; JwtPayload.username := "ana";
     JwtPayload.iat := 2000; JwtPayload.exp := 5600 |}.

Definition toy_encode (secret : string) (p : JwtPayload.t) : string :=
  secret +:+ "." +:+ JwtPayload.id p +:+ "." +:+ JwtPayload.username p.

#[local] Instance toy : Externals :=
  {| bcrypt_hash := λ s p, s +:+ "$" +:+ String.rev p;
     bcrypt_compare := λ p h, includes h ("$" +:+ String.rev p);
     jwt_encode := toy_encode;
     jwt_decode := λ secret t,
       if String.eqb t (toy_encode secret ana_payload)
       then Some ana_payload else None;
     driver_text := λ _, "";
     query_error := λ _ m, m |}.

Definition env : Env :=
  {| JWT_SECRET := "s3cr3t"; now := 2000; gen_random_uuid := "7d9f0c7e-0003";
     salt := "salt"; db_fault := None |}.

Definition ana_token : string := toy_encode "s3cr3t" ana_payload.

Definition request (auth : option string) (b : json) : Request :=
  {| authorization := auth; body := b; user := None |}.

Definition object (fields : list (string * json)) : json :=
  JObj (list_to_map fields).

Definition credentials (u p : string) : json :=
  object [("username", JStr u); ("password", JStr p)].

Definition registration (u e p : string) : json :=
  object [("username", JStr u); ("email", JStr e); ("password", JStr p)].

(** A calf to register, with whatever [userId] the client cares to send. *)
Definition calf (claimed_owner : json) : gmap string json :=
  list_to_map [("codigoUnico", JStr "CR-004"); ("sexo", JStr "M");
               ("nombre", JStr "Lucero"); ("userId", claimed_owner)].

Definition bearer (t : string) : option string := Some ("Bearer " +:+ t).

Definition fincas : list Fincas.Finca :=
  [ {| Fincas.id := 1; Fincas.user_id := 1; Fincas.name := "La Esperanza";
       Fincas.location := "Guanacaste" |};
    {| Fincas.id := 2; Fincas.user_id := 1; Fincas.name := "El Roble";
       Fincas.location := "Alajuela" |};
    {| Fincas.id := 3; Fincas.user_id := 1; Fincas.name := "Santa Marta";
       Fincas.location := "LA FORTUNA" |} ].

Definition record (cells : list (string * Store.Value))
  : gmap string Store.Value :=
  list_to_map cells.

(** Two animals of two users, a weighing of each, and a lot of the first
    user that holds the second animal. *)
Definition herd : gmap string (list (gmap string Store.Value)) :=
  list_to_map
    [ ("users", [ record [("id", Store.VText "u1")];
                  record [("id", Store.VText "u2")] ]);
      ("animals",
        [ record [("id", Store.VInt 1); ("user_id", Store.VText "u1")];
          record [("id", Store.VInt 2); ("user_id", Store.VText "u2")] ]);
      ("weight_records",
        [ record [("id", Store.VInt 1); ("animal_id", Store.VInt 1);
                  ("user_id", Store.VText "u1"); ("peso", Store.VInt 310)];
          record [("id", Store.VInt 2); ("animal_id", Store.VInt 2);
                  ("user_id", Store.VText "u2"); ("peso", Store.VInt 295)] ]);
      ("lotes",
        [ record [("id", Store.VInt 1); ("user_id", Store.VText "u1")] ]);
      ("lote_animals",
        [ record [("id", Store.VInt 1); ("lote_id", Store.VInt 1);
                  ("animal_id", Store.VInt 2);
                  ("user_id", Store.VText "u2")] ]) ].

(** Libraries whose [jwt.verify] accepts one token, the payload of which
    has an empty id. *)
Definition nobody : JwtPayload.t :=
  {| JwtPayload.id := ""; JwtPayload.username := "nadie";
     JwtPayload.iat := 2000; JwtPayload.exp := 5600 |}.

Definition toy_nobody : Externals :=
  {| bcrypt_hash := λ s p, s +:+ "$" +:+ String.rev p;
     bcrypt_compare := λ p h, includes h ("$" +:+ String.rev p);
     jwt_encode := toy_encode;
     jwt_decode := λ secret t,
       if String.eqb t "nobody" then Some nobody else None;
     driver_text := λ _, "";
     query_error := λ _ m, m |}.

(** The text of a statement as drizzle-orm builds it for PostgreSQL, and
    its parameters: every column of the table is named, a column that is
    given no value takes [default], and the others are numbered
    parameters. *)
Definition quoted (s : string) : string := dquote +:+ s +:+ dquote.

Fixpoint joined (sep : string) (l : list string) : string :=
  match l with
  | [] => ""
  | [x] => x
  | x :: l' => x +:+ sep +:+ joined sep l'
  end.

Definition column_list (t : Schema.Table) : string :=
  joined ", " (map (λ c, quoted (Schema.sqlName c.2)) (Schema.columns t)).

Definition placeholder (n : nat) : string :=
  "$" +:+ nth n ["1"; "2"; "3"; "4"; "5"; "6"; "7"; "8"; "9"] "".

Fixpoint values_list (n : nat) (vs : list (option string)) : list string :=
  match vs with
  | [] => []
  | None :: vs' => "default" :: values_list n vs'
  | Some _ :: vs' => placeholder n :: values_list (S n) vs'
  end.

Definition select_text (t : Schema.Table) (column : string) : string :=
  "select " +:+ column_list t +:+ " from " +:+ quoted (Schema.tableName t)
  +:+ " where " +:+ quoted (Schema.tableName t) +:+ "." +:+ quoted column
  +:+ " = $1".

Definition insert_text (t : Schema.Table) (vs : list (option string))
  : string :=
  "insert into " +:+ quoted (Schema.tableName t)
  +:+ " (" +:+ column_list t +:+ ") values ("
  +:+ joined ", " (values_list 0 vs) +:+ ") returning " +:+ column_list t.

(** The values of a statement, column by column. *)
Definition values (q : Statement) : list (option string) :=
  match q with
  | select_from_users u => [Some u]
  | insert_into_users u e h =>
      [None; Some u; Some h; Some e; None; None; None; None]
  | select_from_animals id => [Some id]
  | insert_into_animals v =>
      [None; Some (Pg.userId v); Some (Pg.codigoUnico v); Pg.nombre v;
       Pg.raza v; Some (Pg.sexo v); Pg.fechaNacimiento v; None; None]
  end.

Definition sql (q : Statement) : string :=
  match q with
  | select_from_users _ => select_text Schema.users "username"
  | insert_into_users _ _ _ => insert_text Schema.users (values q)
  | select_from_animals _ => select_text Schema.animals "user_id"
  | insert_into_animals _ => insert_text Schema.animals (values q)
  end.

Definition params (q : Statement) : list string :=
  omap (λ v, v) (values q).

Definition newline : string := String "010"%char EmptyString.

(** The message of [new DrizzleQueryError(query, params, cause)], which
    drizzle-orm throws from 0.44 on: PostgreSQL's own message is on
    [cause], not in it. *)
Definition failed_query (q : Statement) (cause : string) : string :=
  "Failed query: " +:+ sql q +:+ newline +:+ "params: "
  +:+ joined "," (params q).

(** The same libraries with drizzle-orm 0.44. *)
Definition toy_0_44 : Externals :=
  {| bcrypt_hash := λ s p, s +:+ "$" +:+ String.rev p;
     bcrypt_compare := λ p h, includes h ("$" +:+ String.rev p);
     jwt_encode := toy_encode;
     jwt_decode := λ secret t,
       if String.eqb t (toy_encode secret ana_payload)
       then Some ana_payload else None;
     driver_text := λ _, "";
     query_error := failed_query |}.

(** A calf whose code is taken. *)
Definition twin : gmap string json :=
  list_to_map [("codigoUnico", JStr "CR-001"); ("sexo", JStr "M")].

(** A fetch that never gets an answer. *)
Definition offline : Pages.Fetch := λ _ _ _ _, Pages.rejected.

End Sample.

(* ===================================================================== *)
(** * Theorems *)
(* ===================================================================== *)

(** ** JavaScript strings *)

Section JsStrings.
Import Js.

Lemma append_nil (t : string) : "" +:+ t = t.
Proof. reflexivity. Qed.

Lemma append_cons (a : ascii) (s t : string) :
  String a s +:+ t = String a (s +:+ t).
Proof. reflexivity. Qed.

Lemma append_is_empty (s t : string) : s +:+ t = "" → s = "" ∧ t = "".
Proof. destruct s; [done | rewrite append_cons; discriminate]. Qed.

Lemma startsWith_spec (s t : string) :
  startsWith s t = true ↔ ∃ post, s = t +:+ post.
Proof.
  revert s. induction t as [|b t IH]; intros s; simpl.
  - split; [intros _; by exists s | done].
  - destruct s as [|a s].
    + split; [discriminate | intros [post Hp]; discriminate].
    + rewrite andb_true_iff, IH. split.
      * intros [Hab [post ->]]. apply Ascii.eqb_eq in Hab as ->.
        by exists post.
      * intros [post Hp]. rewrite append_cons in Hp. injection Hp as -> ->.
        split; [apply Ascii.eqb_refl | by exists post].
Qed.

Lemma includes_spec (s t : string) :
  includes s t = true ↔ ∃ pre post, s = pre +:+ t +:+ post.
Proof.
  induction s as [|a s IH]; simpl.
  - rewrite orb_false_r, startsWith_spec. split.
    + intros [post Hp]. by exists "", post.
    + intros (pre & post & Hp). symmetry in Hp.
      apply append_is_empty in Hp as [-> Hp]. by exists post.
  - rewrite orb_true_iff, startsWith_spec, IH. split.
    + intros [[post Hp] | (pre & post & ->)].
      * by exists "", post.
      * by exists (String a pre), post.
    + intros (pre & post & Hp). destruct pre as [|b pre].
      * left. by exists post.
      * right. rewrite append_cons in Hp. injection Hp as -> ->.
        by exists pre, post.
Qed.

Lemma includes_empty (s : string) : includes s "" = true.
Proof. destruct s; reflexivity. Qed.

End JsStrings.

(** ** The Fincas page *)

Section FincasPage.
Import Js Fincas.

Lemma matches_wanted (searchTerm : string) (finca : Finca) :
  matches searchTerm finca = true ↔ wanted searchTerm finca.
Proof.
  unfold matches, wanted, is_substring.
  by rewrite orb_true_iff, !includes_spec.
Qed.

Lemma filteredFincas_selection (fincas : list Finca) (searchTerm : string) :
  selection (wanted searchTerm) fincas (filteredFincas fincas searchTerm).
Proof.
  unfold filteredFincas.
  induction fincas as [|f l IH]; simpl; [constructor |].
  destruct (matches searchTerm f) eqn:Hm.
  - apply selection_keep; [by apply matches_wanted | done].
  - apply selection_drop; [| done].
    intros Hw. apply matches_wanted in Hw. congruence.
Qed.

Lemma selection_functional (P : Finca → Prop) (l k1 k2 : list Finca) :
  selection P l k1 → selection P l k2 → k1 = k2.
Proof.
  intros H1. revert k2.
  induction H1 as [|f l k Hf _ IH|f l k Hf _ IH]; intros k2 H2;
    inversion H2; subst; try done.
  - f_equal. by apply IH.
  - by apply IH.
Qed.

Lemma filteredFincas_all (fincas : list Finca) :
  filteredFincas fincas "" = fincas.
Proof.
  unfold filteredFincas.
  induction fincas as [|f l IH]; simpl; [done |].
  unfold matches at 1. simpl. rewrite includes_empty. simpl. by rewrite IH.
Qed.

(** C10. For every list of fincas and every search term, [filteredFincas]
    is exactly the selection, in the order of the list, of the fincas whose
    lowercased name or lowercased location contains the lowercased term as
    a substring: it is such a selection and no other list is. With the
    empty term it is the whole list. *)
Theorem C10_filteredFincas_exact (fincas : list Finca) (searchTerm : string) :
  selection (wanted searchTerm) fincas (filteredFincas fincas searchTerm) ∧
  (∀ k, selection (wanted searchTerm) fincas k →
        k = filteredFincas fincas searchTerm) ∧
  filteredFincas fincas "" = fincas.
Proof.
  split; [apply filteredFincas_selection |].
  split; [| apply filteredFincas_all].
  intros k Hk.
  eapply selection_functional; [exact Hk | apply filteredFincas_selection].
Qed.

End FincasPage.

(** ** The schema and [ON DELETE CASCADE] *)

Section Cascade.
Import Schema Store.

Lemma rows_insert (db : Database) (t t' : string) (l : list Row) :
  rows (<[t := l]> db) t' = if decide (t = t') then l else rows db t'.
Proof.
  unfold rows. rewrite lookup_insert. by destruct (decide (t = t')).
Qed.

(** Deleting never adds a row, in any table. *)
Lemma cascade_into_shrinks del gone children (db db' : Database) :
  (∀ d t f d', del d t f = Some d' →
               ∀ t' r, In r (rows d' t') → In r (rows d t')) →
  cascade_into del gone children db = Some db' →
  ∀ t' r, In r (rows db' t') → In r (rows db t').
Proof.
  intros Hdel. revert db.
  induction children as [|[[child col] key] rest IH]; intros db Hrun t' r Hr;
    simpl in Hrun.
  - by injection Hrun as <-.
  - destruct (del db child (refers_any col key gone)) as [d1|] eqn:Hd1;
      [| discriminate].
    eapply Hdel; [exact Hd1 |]. by eapply IH.
Qed.

Lemma delete_where_shrinks fuel sch (db db' : Database) t doomed :
  delete_where fuel sch db t doomed = Some db' →
  ∀ t' r, In r (rows db' t') → In r (rows db t').
Proof.
  revert db db' t doomed.
  induction fuel as [|fuel IH]; intros db db' t doomed Hrun t' r Hr;
    simpl in Hrun; [discriminate |].
  eapply cascade_into_shrinks in Hrun; [| intros ????; apply IH | exact Hr].
  rewrite rows_insert in Hrun. destruct (decide (t = t')) as [<-|]; [| done].
  apply filter_In in Hrun. tauto.
Qed.

(** The doomed rows are gone. *)
Lemma delete_where_doomed fuel sch (db db' : Database) t doomed :
  delete_where fuel sch db t doomed = Some db' →
  ∀ r, In r (rows db' t) → doomed r = false.
Proof.
  destruct fuel as [|fuel]; simpl; [discriminate |]. intros Hrun r Hr.
  eapply cascade_into_shrinks in Hrun;
    [| intros ????; apply delete_where_shrinks | exact Hr].
  rewrite rows_insert, decide_True in Hrun by done.
  apply filter_In in Hrun as [_ Hrun]. by apply negb_true_iff.
Qed.

(** After the cascade, no row of a referencing table references a row that
    went. *)
Lemma cascade_into_clears fuel sch gone children (db db' : Database) :
  cascade_into (λ d, delete_where fuel sch d) gone children db = Some db' →
  ∀ child col key r,
    In (child, col, key) children → In r (rows db' child) →
    refers_any col key gone r = false.
Proof.
  revert db.
  induction children as [|[[c0 col0] key0] rest IH];
    intros db Hrun child col key r Hin Hr; simpl in *; [done |].
  destruct (delete_where fuel sch db c0 (refers_any col0 key0 gone))
    as [d1|] eqn:Hd1; [| discriminate].
  destruct Hin as [Heq | Hin].
  - injection Heq as -> -> ->.
    eapply delete_where_doomed; [exact Hd1 |].
    eapply cascade_into_shrinks; [| exact Hrun | exact Hr].
    intros ????. apply delete_where_shrinks.
  - by eapply IH.
Qed.

Lemma delete_where_clears fuel sch (db db' : Database) t doomed :
  delete_where fuel sch db t doomed = Some db' →
  ∀ child col key g r,
    In (child, col, key) (cascading_children sch t) →
    In g (rows db t) → doomed g = true →
    In r (rows db' child) →
    refers col key g r = false.
Proof.
  destruct fuel as [|fuel]; simpl; [discriminate |].
  intros Hrun child col key g r Hin Hg Hdoomed Hr.
  eapply cascade_into_clears in Hrun; [| exact Hin | exact Hr].
  unfold refers_any in Hrun.
  destruct (refers col key g r) eqn:Href; [| done].
  assert (existsb (λ g0, refers col key g0 r) (List.filter doomed (rows db t))
          = true) as Hex; [| congruence].
  apply existsb_exists. exists g. split; [| done].
  apply filter_In. done.
Qed.

(** A table that declares a cascading reference is among the tables the
    deletion propagates to. *)
Lemma cascades_to_child sch t col parent key :
  In t sch → cascades_to col parent key t = true →
  In (tableName t, col, key) (cascading_children sch parent).
Proof.
  intros Ht Hc. unfold cascading_children.
  apply in_flat_map. exists t. split; [done |].
  apply existsb_exists in Hc as ([k c] & Hkc & Hc). simpl in Hc.
  apply in_flat_map. exists (k, c). split; [done |]. simpl.
  destruct (foreignKey c) as [r|]; [| by rewrite andb_false_r in Hc].
  destruct (ref_onDelete r); [| by rewrite !andb_false_r in Hc].
  rewrite andb_true_r in Hc.
  apply andb_true_iff in Hc as [Hname Hc].
  apply andb_true_iff in Hc as [Htab Hkey].
  rewrite Htab. apply String.eqb_eq in Hname as <-.
  apply String.eqb_eq in Hkey as <-. by left.
Qed.

(** A table nothing refers to is deleted from in one step. *)
Lemma delete_where_leaf fuel sch (db : Database) t doomed :
  cascading_children sch t = [] →
  is_Some (delete_where (S fuel) sch db t doomed).
Proof. intros Hleaf. simpl. rewrite Hleaf. simpl. by eexists. Qed.

Lemma cascade_into_total del gone children (db : Database) :
  (∀ child col key d f, In (child, col, key) children →
                        is_Some (del d child f)) →
  is_Some (cascade_into del gone children db).
Proof.
  revert db. induction children as [|[[child col] key] rest IH];
    intros db Hdel; simpl; [by eexists |].
  destruct (Hdel child col key db (refers_any col key gone)) as [d1 ->];
    [by left |].
  apply IH. intros c0 col0 key0 d f Hin. eapply Hdel. by right.
Qed.

End Cascade.

Section SchemaFacts.
Import Schema Store.
#[local] Arguments String.eqb : simpl never.

Lemma delete_where_enough fuel sch t :
  chains_end fuel sch t = true →
  ∀ (db : Database) doomed, is_Some (delete_where fuel sch db t doomed).
Proof.
  revert t. induction fuel as [|fuel IH]; intros t Hend db doomed;
    simpl in Hend; [discriminate |].
  cbn [delete_where]. apply cascade_into_total.
  intros child col key d f Hin. apply IH.
  rewrite forallb_forall in Hend. apply (Hend _ Hin).
Qed.

(** Only [users], [animals] and [lotes] are referenced. *)
Lemma nothing_refers_to t :
  t ≠ "users" → t ≠ "animals" → t ≠ "lotes" →
  cascading_children schema t = [].
Proof.
  intros Hu Ha Hl.
  assert (String.eqb "users" t = false) as Eu
    by (apply String.eqb_neq; congruence).
  assert (String.eqb "animals" t = false) as Ea
    by (apply String.eqb_neq; congruence).
  assert (String.eqb "lotes" t = false) as El
    by (apply String.eqb_neq; congruence).
  unfold cascading_children. cbn. by rewrite ?Eu, ?Ea, ?El.
Qed.

(** Deleting from any table of the schema returns. *)
Lemma delete_total (db : Database) t doomed : is_Some (delete db t doomed).
Proof.
  unfold delete.
  destruct (decide (t = "users")) as [->|Hu];
    [by apply delete_where_enough; vm_compute |].
  destruct (decide (t = "animals")) as [->|Ha];
    [by apply delete_where_enough; vm_compute |].
  destruct (decide (t = "lotes")) as [->|Hl];
    [by apply delete_where_enough; vm_compute |].
  by apply delete_where_leaf, nothing_refers_to.
Qed.

(** C7, as amended. The schema declares nine record tables. Each has a
    [user_id] column referencing [users.id] with [onDelete: "cascade"];
    eight of them, all but [lotes], also have an [animal_id] column
    referencing [animals.id] with [onDelete: "cascade"], while [lotes] has
    no [animal_id] column at all ([lote_animals] references [lotes.id]
    instead). Hence deleting the row of a user or of an animal returns a
    database in which that row is gone and in which no row of a table that
    declares a cascading reference to it ([animals] and the nine tables
    for a user, the eight tables for an animal) still holds its id. *)
Theorem C7_cascade_delete (db : Database) (parent col : string) (k : Value) :
  k ≠ VNull →
  (∃ g, In g (rows db parent) ∧ cell g "id" = k) →
  (List.length recordTables = 9%nat ∧
   forallb (cascades_to "user_id" "users" "id") (animals :: recordTables)
     = true ∧
   List.filter (cascades_to "animal_id" "animals" "id") recordTables
     = [ weightRecords; healthRecords; vaccinations; pestControl;
         reproduction; feeding; traceability; loteAnimals ] ∧
   has_column "animal_id" lotes = false ∧
   cascades_to "lote_id" "lotes" "id" loteAnimals = true) ∧
  ∃ db',
    delete db parent (has_id k) = Some db' ∧
    (∀ r, In r (rows db' parent) → cell r "id" ≠ k) ∧
    (∀ t r, In t schema → cascades_to col parent "id" t = true →
            In r (rows db' (tableName t)) → cell r col ≠ k).
Proof.
  intros Hk (g & Hg & Hid).
  split; [by vm_compute |].
  destruct (delete_total db parent (has_id k)) as [db' Hrun].
  exists db'. split; [done |]. split.
  - intros r Hr Heq.
    eapply delete_where_doomed in Hrun; [| exact Hr].
    unfold has_id in Hrun. by rewrite bool_decide_eq_false in Hrun.
  - intros t r Ht Hc Hr Heq.
    eapply delete_where_clears in Hrun;
      [| by apply cascades_to_child | exact Hg
       | by apply bool_decide_eq_true | exact Hr].
    unfold refers in Hrun. rewrite Heq, Hid in Hrun.
    destruct k; [done | |]; by rewrite bool_decide_eq_false in Hrun.
Qed.

End SchemaFacts.

(** ** The [Authorization] header *)

Section HeaderToken.
Import Js.

Lemma split_nonempty (sep : ascii) (s : string) : split sep s ≠ [].
Proof.
  destruct s as [|c s]; simpl; [done |].
  destruct (Ascii.eqb c sep); [done |]. by destruct (split sep s).
Qed.

(** A string without the separator is its own single field. *)
Lemma split_without (sep : ascii) (s : string) :
  includes s (String sep "") = false → split sep s = [s].
Proof.
  induction s as [|c s IH]; simpl; [done |].
  intros Hno. apply orb_false_iff in Hno as [Hc Hs].
  rewrite andb_true_r in Hc. rewrite Hc, (IH Hs). done.
Qed.

(** The first field ends at the first separator. *)
Lemma split_first (sep : ascii) (s rest : string) :
  includes s (String sep "") = false →
  split sep (s +:+ String sep rest) = s :: split sep rest.
Proof.
  induction s as [|c s IH]; intros Hno.
  - rewrite append_nil. simpl. by rewrite Ascii.eqb_refl.
  - simpl in Hno. apply orb_false_iff in Hno as [Hc Hs].
    rewrite andb_true_r in Hc.
    rewrite append_cons. simpl. rewrite Hc, (IH Hs). done.
Qed.

End HeaderToken.

(** ** The middleware *)

Section Middleware.
Context `{Externals}.
Import Js Zod Pg Server.

(** The header carries no token: it is absent, or it is a single word, or
    nothing follows its first space. *)
Lemma no_token_header (req : Request) :
  authorization req = None ∨
  (∃ h, authorization req = Some h ∧ includes h " " = false) ∨
  (∃ scheme, authorization req = Some (scheme +:+ " ") ∧
             includes scheme " " = false) →
  header_token req = None ∨ header_token req = Some "".
Proof.
  unfold header_token.
  intros [-> | [(h & -> & Hh) | (scheme & -> & Hs)]].
  - by left.
  - left. by rewrite split_without.
  - right. by rewrite (split_first " " scheme "" Hs).
Qed.

Lemma authenticateToken_next (env : Env) (req req' : Request) :
  authenticateToken env req = next req' →
  ∃ t u, header_token req = Some t ∧ t ≠ "" ∧
         jwt_verify (JWT_SECRET env) (now env) t = Some u ∧
         req' = {| authorization := authorization req; body := body req;
                   user := Some u |}.
Proof.
  unfold authenticateToken.
  destruct (header_token req) as [[|c t]|]; [done | | done].
  destruct (jwt_verify _ _ _) as [u|] eqn:Hverify; [| done].
  intros [= <-]. by exists (String c t), u.
Qed.

(** C1. For GET /api/animals and POST /api/animals alike: a request whose
    Authorization header carries no token (the header is absent, or has no
    space, or has nothing after its first space, or more generally has an
    absent or empty second field) is answered 401 with an error payload and
    no statement is sent to the database; a request whose token fails
    [jwt.verify] against [JWT_SECRET] is answered 403 with an error
    payload and no statement is sent; and the route body runs only on a
    request whose token verified, with [req.user] set to its payload. *)
Theorem C1_authenticateToken_guards
    (route : Env → Db → Request → Result) (env : Env) (db : Db)
    (req : Request) :
  route = GET_api_animals ∨ route = POST_api_animals →
  (authorization req = None ∨
   (∃ h, authorization req = Some h ∧ includes h " " = false) ∨
   (∃ scheme, authorization req = Some (scheme +:+ " ") ∧
              includes scheme " " = false) ∨
   header_token req = None ∨ header_token req = Some "" →
   route env db req = respond 401 (error "Token requerido") db []) ∧
  (∀ t, header_token req = Some t → t ≠ "" →
        jwt_verify (JWT_SECRET env) (now env) t = None →
        route env db req = respond 403 (error "Token inválido") db []) ∧
  (∀ req', authenticateToken env req = next req' →
           ∃ t u, header_token req = Some t ∧
                  jwt_verify (JWT_SECRET env) (now env) t = Some u ∧
                  user req' = Some u) ∧
  (∀ r, authenticateToken env req = responded r →
        route env db req = {| response := r; db_after := db;
                              statements := [] |}).
Proof.
  intros Hroute. repeat split.
  - intros Hno.
    assert (header_token req = None ∨ header_token req = Some "") as Htok.
    { destruct Hno as [?|[?|[?|?]]]; try done; apply no_token_header; auto. }
    destruct Hroute as [-> | ->];
      unfold GET_api_animals, POST_api_animals, behind_authenticateToken,
        authenticateToken;
      by destruct Htok as [-> | ->].
  - intros t Ht Hne Hverify.
    destruct Hroute as [-> | ->];
      unfold GET_api_animals, POST_api_animals, behind_authenticateToken,
        authenticateToken;
      rewrite Ht, Hverify; by destruct t.
  - intros req' Hnext.
    apply authenticateToken_next in Hnext as (t & u & ? & ? & ? & ->).
    by exists t, u.
  - intros r Hr.
    destruct Hroute as [-> | ->];
      unfold GET_api_animals, POST_api_animals, behind_authenticateToken;
      by rewrite Hr.
Qed.

End Middleware.

(** ** Validation *)

Section Validation.
Import Js Zod.

Lemma z_string_inr k v s : z_string k v = inr s ↔ v = Some (JStr s).
Proof.
  unfold z_string. destruct v as [[]|]; split; intros Heq;
    by simplify_eq.
Qed.

Lemma z_string_min_inr n msg k v s :
  z_string_min n msg k v = inr s ↔
  v = Some (JStr s) ∧ (n ≤ String.length s)%nat.
Proof.
  unfold z_string_min. destruct v as [[| | |s'| |]|];
    try (split; [done | intros [? _]; done]).
  destruct (Nat.ltb_spec (String.length s') n); split.
  - done.
  - intros [[= ->] ?]. lia.
  - intros [= ->]. split; [done | lia].
  - by intros [[= ->] _].
Qed.

Lemma insertUserSchema_success input data :
  insertUserSchema input = success data ↔
  prop input "username" = Some (JStr (username data)) ∧
  prop input "email" = Some (JStr (email data)) ∧
  prop input "password" = Some (JStr (password data)) ∧
  (6 ≤ String.length (password data))%nat.
Proof.
  destruct input as [| | | | |m]; try (split; [done | by intros [? _]]).
  unfold insertUserSchema, prop.
  split.
  - destruct (z_string "username" _) as [?|u] eqn:Hu; [done |].
    destruct (z_string "email" _) as [?|e] eqn:He; [done |].
    destruct (z_string_min _ _ _ _) as [?|p] eqn:Hp; [done |].
    apply z_string_inr in Hu, He. apply z_string_min_inr in Hp as [Hp ?].
    by intros [= <-].
  - intros (Hu & He & Hp & Hlen).
    apply z_string_inr with (k := "username") in Hu.
    apply z_string_inr with (k := "email") in He.
    assert (z_string_min 6 "Contraseña debe tener al menos 6 caracteres"
              "password" (m !! "password") = inr (password data)) as Hp'
      by by apply z_string_min_inr.
    rewrite Hu, He, Hp'. by destruct data.
Qed.

Lemma insertUserSchema_failure input :
  (∃ pw, prop input "password" = Some (JStr pw) ∧
         (String.length pw < 6)%nat) ∨
  prop input "username" = None ∨ prop input "email" = None →
  ∃ errs, insertUserSchema input = failure errs.
Proof.
  intros Hbad.
  destruct (insertUserSchema input) as [data|errs] eqn:Hparse;
    [| by eexists].
  apply insertUserSchema_success in Hparse as (Hu & He & Hp & Hlen).
  destruct Hbad as [(pw & Hpw & Hshort) | [Hno | Hno]];
    rewrite ?Hu, ?He, ?Hp in *; simplify_eq. lia.
Qed.

End Validation.

(** ** [POST /api/signup] *)

Section Signup.
Context `{Externals}.
Import Js Zod Pg Server.

Lemma unique_violation_mentions (constraint : string) :
  includes (unique_violation constraint)
    "duplicate key value violates unique constraint" = true.
Proof.
  apply includes_spec.
  by exists "", (" " +:+ dquote +:+ constraint +:+ dquote).
Qed.

(** A rejected insert leaves the table as it was. *)
Lemma insert_users_thrown env db u e h m db' :
  insert_users env db u e h = (thrown m, db') → db' = db.
Proof.
  unfold insert_users. destruct (db_fault env); [by intros [= _ <-] |].
  repeat case_match; by intros [= <-].
Qed.

Lemma existsb_username (l : list User.t) (u : string) :
  existsb (λ r, String.eqb (User.username r) u) l = true ↔
  In u (map User.username l).
Proof.
  rewrite existsb_exists, in_map_iff. split.
  - intros (r & Hr & Heq). apply String.eqb_eq in Heq. by exists r.
  - intros (r & Heq & Hr). exists r. by rewrite String.eqb_eq.
Qed.

(** C3. For every POST /api/signup request whose body fails
    [insertUserSchema] (which happens in particular when the password is a
    string shorter than 6 characters, or when username or email is
    missing) the handler answers 400 with the validation errors, sends no
    statement to the database and leaves the stored state unchanged. *)
Theorem C3_signup_rejects_invalid_body (env : Env) (db : Db) (req : Request) :
  ((∃ pw, prop (body req) "password" = Some (JStr pw) ∧
          (String.length pw < 6)%nat) ∨
   prop (body req) "username" = None ∨ prop (body req) "email" = None →
   ∃ errs, insertUserSchema (body req) = failure errs) ∧
  (∀ errs, insertUserSchema (body req) = failure errs →
           POST_api_signup env db req = respond 400 (errors errs) db [] ∧
           db_after (POST_api_signup env db req) = db).
Proof.
  split; [apply insertUserSchema_failure |].
  intros errs Hparse. unfold POST_api_signup, signup. by rewrite Hparse.
Qed.

(** What the handler answers to a rejected insert, whatever the version of
    drizzle-orm. For a body that passes validation: when the statement
    reaches the table and the username already exists in [users],
    PostgreSQL rejects the row with a unique violation; whenever the insert
    is rejected the table gains no row and the handler decides by the
    message of the error it catches, 409 when that message mentions a
    duplicate-key unique-constraint violation and 500 with the message
    otherwise; so a duplicate username is answered 409 when the error of
    the driver reaches the handler as it is. *)
Lemma signup_rejected_insert
    (env : Env) (db : Db) (req : Request) (data : InsertUser) :
  insertUserSchema (body req) = success data →
  let hashed := bcrypt_hash (salt env) (password data) in
  let q := insert_into_users (username data) (email data) hashed in
  (db_fault env = None →
   In (username data) (map User.username (users db)) →
   ∃ constraint,
     insert_users env db (username data) (email data) hashed
     = (thrown (unique_violation constraint), db)) ∧
  (∀ m db',
     insert_users env db (username data) (email data) hashed
     = (thrown m, db') →
     POST_api_signup env db req
     = if includes (query_error q m)
            "duplicate key value violates unique constraint"
       then respond 409 (error "El nombre de usuario o email ya existe.")
              db [q]
       else respond 500 (error (query_error q m)) db [q]) ∧
  ((∀ m, query_error q m = m) →
   db_fault env = None →
   In (username data) (map User.username (users db)) →
   POST_api_signup env db req
   = respond 409 (error "El nombre de usuario o email ya existe.") db [q]).
Proof.
  intros Hparse hashed q.
  assert (∀ m db',
            insert_users env db (username data) (email data) hashed
            = (thrown m, db') →
            POST_api_signup env db req
            = if includes (query_error q m)
                   "duplicate key value violates unique constraint"
              then respond 409
                     (error "El nombre de usuario o email ya existe.") db [q]
              else respond 500 (error (query_error q m)) db [q]) as Hanswer.
  { intros m db' Hinsert. unfold POST_api_signup, signup.
    rewrite Hparse. fold hashed. fold q. rewrite Hinsert. cbv zeta.
    by apply insert_users_thrown in Hinsert as ->. }
  assert (db_fault env = None →
          In (username data) (map User.username (users db)) →
          ∃ constraint,
            insert_users env db (username data) (email data) hashed
            = (thrown (unique_violation constraint), db)) as Hrejected.
  { intros Hfault Hdup. apply existsb_username in Hdup.
    unfold insert_users. rewrite Hfault, Hdup. clear Hdup.
    destruct (existsb _ _); by eexists. }
  split; [done |]. split; [done |].
  intros Hsame Hfault Hdup.
  destruct (Hrejected Hfault Hdup) as [constraint Hinsert].
  rewrite (Hanswer _ _ Hinsert), Hsame.
  by rewrite unique_violation_mentions.
Qed.

(** C9. For every POST /api/signup request that succeeds (201), the body
    passed validation and the [user] field of the response is the whole
    row the database inserted and returned: its [passwordHash] column is
    the bcrypt hash of the submitted password, and every other column
    comes from the username, the email or a column default. The table
    grows by exactly that row, so the password itself is stored nowhere:
    a request with the same username and email whose password has the same
    hash leaves the same database. *)
Theorem C9_signup_returns_inserted_row (env : Env) (db : Db) (req : Request) :
  status (response (POST_api_signup env db req)) = 201%Z →
  ∃ data row,
    insertUserSchema (body req) = success data ∧
    row = {| User.id := gen_random_uuid env;
             User.username := username data;
             User.passwordHash := bcrypt_hash (salt env) (password data);
             User.email := email data;
             User.nombre := None;
             User.telefono := None;
             User.createdAt := Some (now env);
             User.updatedAt := Some (now env) |} ∧
    response (POST_api_signup env db req)
    = {| status := 201; payload := message_user "Usuario creado" row |} ∧
    db_after (POST_api_signup env db req)
    = {| users := users db ++ [row]; animals := animals db;
         animals_id_seq := animals_id_seq db |} ∧
    (∀ req' data',
       insertUserSchema (body req') = success data' →
       username data' = username data → email data' = email data →
       bcrypt_hash (salt env) (password data')
       = bcrypt_hash (salt env) (password data) →
       db_after (POST_api_signup env db req')
       = db_after (POST_api_signup env db req)).
Proof.
  unfold POST_api_signup, signup.
  destruct (insertUserSchema (body req)) as [data|errs] eqn:Hparse;
    [| done].
  destruct (insert_users _ _ _ _ _) as [[row|m] db'] eqn:Hinsert;
    [| by destruct (includes _ _)].
  intros _. exists data, row.
  assert (Hinsert' := Hinsert). unfold insert_users in Hinsert'.
  destruct (db_fault env); [done |].
  do 2 (destruct (existsb _ _); [done |]).
  injection Hinsert' as <- <-.
  repeat split; try done.
  intros req' data' Hparse' Hu He Hh.
  by rewrite Hparse', Hu, He, Hh, Hinsert.
Qed.

End Signup.

(** ** The constraints of the schema hold in every reachable database *)

Section Constraints.
Context `{Externals}.
Import Js Zod Pg Server.

Lemma existsb_none {A} (f : A → bool) (l : list A) :
  existsb f l = false → ∀ x, In x l → f x = false.
Proof.
  intros Hnone x Hx. destruct (f x) eqn:Hfx; [| done].
  assert (existsb f l = true) by (apply existsb_exists; by exists x).
  congruence.
Qed.

(** A key stays unique when a row with a fresh key is appended. *)
Lemma NoDup_map_snoc {A B} (f : A → B) (l : list A) (x : A) :
  NoDup (map f l) → (∀ r, In r l → f r ≠ f x) → NoDup (map f (l ++ [x])).
Proof.
  intros Hnodup Hfresh. rewrite map_app. apply NoDup_app.
  split; [done |]. split; [| apply NoDup_singleton].
  intros y Hy Hx. apply list_elem_of_In in Hy. simpl in Hx.
  apply list_elem_of_singleton in Hx as ->.
  apply in_map_iff in Hy as (r & Heq & Hr). by apply (Hfresh r).
Qed.

Lemma insert_users_consistent env db u e h o db' :
  insert_users env db u e h = (o, db') → consistent db → consistent db'.
Proof.
  unfold insert_users. destruct (db_fault env); [by intros [= _ <-] |].
  destruct (existsb _ _) eqn:Hid; [by intros [= _ <-] |].
  destruct (existsb (λ r, String.eqb (User.username r) u) _) eqn:Hname;
    [by intros [= _ <-] |].
  intros [= _ <-] [Hpk Hun Hak Hcu Hfk]. split; simpl; try done.
  - apply NoDup_map_snoc; [done |]. intros r Hr.
    apply (existsb_none _ _ Hid) in Hr. by apply String.eqb_neq in Hr.
  - apply NoDup_map_snoc; [done |]. intros r Hr.
    apply (existsb_none _ _ Hname) in Hr. by apply String.eqb_neq in Hr.
  - intros a Ha. rewrite map_app. apply elem_of_app. left. by apply Hfk.
Qed.

Lemma insert_animals_consistent env db v o db' :
  insert_animals env db v = (o, db') → consistent db → consistent db'.
Proof.
  unfold insert_animals. destruct (db_fault env); [by intros [= _ <-] |].
  destruct (existsb _ _) eqn:Hid;
    [by intros [= _ <-] [Hpk Hun Hak Hcu Hfk] |].
  destruct (existsb (λ r, String.eqb (Animal.codigoUnico r) _) _) eqn:Hcode;
    [by intros [= _ <-] [Hpk Hun Hak Hcu Hfk] |].
  destruct (existsb (λ r, String.eqb (User.id r) _) _) eqn:Howner;
    cbv iota beta delta [negb];
    [| by intros [= _ <-] [Hpk Hun Hak Hcu Hfk]].
  intros [= _ <-] [Hpk Hun Hak Hcu Hfk]. split; simpl; try done.
  - apply NoDup_map_snoc; [done |]. intros r Hr.
    apply (existsb_none _ _ Hid) in Hr. simpl. by apply Z.eqb_neq in Hr.
  - apply NoDup_map_snoc; [done |]. intros r Hr.
    apply (existsb_none _ _ Hcode) in Hr. by apply String.eqb_neq in Hr.
  - intros a [Ha | ->%list_elem_of_singleton]%elem_of_app; [by apply Hfk |].
    simpl. apply existsb_exists in Howner as (owner & Howner & Heq).
    apply String.eqb_eq in Heq as <-. by apply list_elem_of_In, in_map.
Qed.

(** Every route keeps the primary keys and the usernames and codes unique,
    and every animal owned by a stored user. *)
Lemma routes_keep_consistent route env db req :
  In route routes → consistent db → consistent (db_after (route env db req)).
Proof.
  intros [<- | [<- | [<- | [<- | []]]]] Hdb.
  - unfold POST_api_signup, signup.
    destruct (insertUserSchema _); [| done].
    destruct (insert_users _ _ _ _ _) as [[row|m] db'] eqn:Hinsert;
      apply insert_users_consistent in Hinsert; try done.
    by destruct (includes _ _).
  - unfold POST_api_login, login, select_users_by_username.
    repeat case_match; done.
  - unfold GET_api_animals, behind_authenticateToken, list_animals,
      select_animals_by_userId.
    repeat case_match; done.
  - unfold POST_api_animals, behind_authenticateToken, create_animal.
    destruct (authenticateToken env req) as [|req']; [done |].
    destruct (user req'); [| done].
    destruct (String.eqb _ _); [done |].
    destruct (insertAnimalSchema _); [| done].
    destruct (insert_animals _ _ _) as [[row|m] db'] eqn:Hinsert;
      by apply insert_animals_consistent in Hinsert.
Qed.

Lemma reachable_consistent db : reachable db → consistent db.
Proof.
  induction 1 as [|route env db req Hroute _ IH].
  - split; simpl; try apply NoDup_nil_2. intros a Ha. by apply elem_of_nil in Ha.
  - by apply routes_keep_consistent.
Qed.

End Constraints.

(** ** [POST /api/login] *)

Section Login.
Context `{Externals}.
Import Js Zod Pg Server.

Lemma filter_none {A} (f : A → bool) (l : list A) :
  (∀ x, In x l → f x = false) → List.filter f l = [].
Proof.
  induction l as [|a l IH]; intros Hf; simpl; [done |].
  rewrite (Hf a) by by left. apply IH. intros x Hx. apply Hf. by right.
Qed.

(** With unique usernames, the query by username returns the one row. *)
Lemma select_unique_username (l : list User.t) (u : User.t) :
  NoDup (map User.username l) → In u l →
  List.filter (λ r, String.eqb (User.username r) (User.username u)) l = [u].
Proof.
  induction l as [|r l IH]; [done |].
  simpl. intros [Hfresh Hnodup]%NoDup_cons [-> | Hin].
  all: rewrite list_elem_of_In in Hfresh.
  - rewrite String.eqb_refl. f_equal. apply filter_none.
    intros x Hx. apply String.eqb_neq. intros Heq. apply Hfresh.
    rewrite <- Heq. by apply in_map.
  - destruct (String.eqb_spec (User.username r) (User.username u)) as [Heq|];
      [| by apply IH].
    destruct Hfresh. rewrite Heq. by apply in_map.
Qed.

(** The login handler only reads. *)
Lemma login_reads_only (env : Env) (db : Db) (req : Request) :
  db_after (POST_api_login env db req) = db.
Proof.
  unfold POST_api_login, login, select_users_by_username.
  repeat case_match; done.
Qed.

(** C2, as amended. For every stored user (usernames being unique, as the
    schema declares) and every POST /api/login request whose username and
    password are truthy (not empty), whose username matches that user and
    whose password bcrypt-compares equal to the stored [password_hash]:
    when the query reaches the table, the handler answers 200 with a
    token signed with [JWT_SECRET] whose payload holds that user's id and
    username, issued now and expiring 3600 seconds later; and the stored
    state is unchanged. Wherever decoding undoes encoding, that token
    verifies exactly until its hour has passed. *)
Theorem C2_login_issues_token
    (env : Env) (db : Db) (req : Request) (u : User.t) :
  NoDup (map User.username (users db)) →
  In u (users db) →
  truthy (prop (body req) "username") = true →
  truthy (prop (body req) "password") = true →
  text_param (prop (body req) "username") = User.username u →
  bcrypt_compare_any (prop (body req) "password") (User.passwordHash u)
  = returned true →
  db_fault env = None →
  let claims :=
    {| JwtPayload.id := User.id u; JwtPayload.username := User.username u;
       JwtPayload.iat := now env; JwtPayload.exp := (now env + 3600)%Z |} in
  POST_api_login env db req
  = respond 200 (token (jwt_encode (JWT_SECRET env) claims)) db
      [select_from_users (User.username u)] ∧
  (jwt_decode (JWT_SECRET env) (jwt_encode (JWT_SECRET env) claims)
   = Some claims →
   ∀ clock, jwt_verify (JWT_SECRET env) clock
              (jwt_encode (JWT_SECRET env) claims)
            = if (now env + 3600 <=? clock)%Z then None else Some claims).
Proof.
  intros Hunique Hu Hname Hpw Hmatch Hcompare Hfault claims. split.
  - unfold POST_api_login, login, select_users_by_username.
    rewrite Hname, Hpw, Hfault, Hmatch. simpl.
    rewrite (select_unique_username _ _ Hunique Hu), Hcompare. done.
  - intros Hdecode clock. unfold jwt_verify. by rewrite Hdecode.
Qed.

(** C5, as amended. For every POST /api/login request: if username or
    password is falsy (absent, null, false, 0 or the empty string) the
    handler answers 400; otherwise, when the query reaches the table, if
    no stored user has that username, or [bcrypt.compare] of the password
    with the stored [password_hash] of the user found returns false, the
    handler answers 401 with the same error payload in both cases. The
    stored state is unchanged in every case. *)
Theorem C5_login_failures (env : Env) (db : Db) (req : Request) :
  let username := prop (body req) "username" in
  let password := prop (body req) "password" in
  let sent := [select_from_users (text_param username)] in
  db_after (POST_api_login env db req) = db ∧
  (truthy username = false ∨ truthy password = false →
   POST_api_login env db req
   = respond 400 (error "Usuario y contraseña requeridos") db []) ∧
  (truthy username = true → truthy password = true →
   db_fault env = None →
   (∀ u, In u (users db) → User.username u ≠ text_param username) →
   POST_api_login env db req
   = respond 401 (error "Credenciales inválidas") db sent) ∧
  (truthy username = true → truthy password = true →
   db_fault env = None →
   ∀ u rest,
     List.filter (λ r, String.eqb (User.username r) (text_param username))
       (users db) = u :: rest →
     bcrypt_compare_any password (User.passwordHash u) = returned false →
     POST_api_login env db req
     = respond 401 (error "Credenciales inválidas") db sent).
Proof.
  intros username password sent.
  split; [apply login_reads_only |].
  unfold POST_api_login, login, select_users_by_username.
  fold username. fold password. fold sent. repeat split.
  - intros [-> | ->]; [done | by rewrite orb_true_r].
  - intros -> -> -> Hnone. simpl. rewrite filter_none; [done |].
    intros u Hu. apply String.eqb_neq. by apply Hnone.
  - intros -> -> -> u rest -> ->. done.
Qed.

End Login.

(** ** [GET /api/animals] and [POST /api/animals] *)

Section Animals.
Context `{Externals}.
Import Js Zod Pg Server.

Lemma authenticateToken_verified env req t u :
  header_token req = Some t → t ≠ "" →
  jwt_verify (JWT_SECRET env) (now env) t = Some u →
  authenticateToken env req
  = next {| authorization := authorization req; body := body req;
            user := Some u |}.
Proof.
  intros Ht Hne Hverify. unfold authenticateToken.
  rewrite Ht, Hverify. by destruct t.
Qed.

(** C6. For every authenticated GET /api/animals request and every stored
    animals table, a 200 response carries exactly the rows of the table
    whose [user_id] equals the id in the verified token, in table order:
    every such row appears and no row of another user does. The response
    is 200 whenever that id is not empty and the query reaches the table;
    the stored state is unchanged. *)
Theorem C6_animals_of_requester
    (env : Env) (db : Db) (req : Request) (t : string) (u : JwtPayload.t) :
  header_token req = Some t → t ≠ "" →
  jwt_verify (JWT_SECRET env) (now env) t = Some u →
  let r := GET_api_animals env db req in
  let own :=
    List.filter (λ a, String.eqb (Animal.userId a) (JwtPayload.id u))
      (animals db) in
  (status (response r) = 200%Z → payload (response r) = animals_array own) ∧
  (∀ a, In a own ↔ In a (animals db) ∧ Animal.userId a = JwtPayload.id u) ∧
  (db_fault env = None → JwtPayload.id u ≠ "" →
   response r = {| status := 200; payload := animals_array own |}) ∧
  db_after r = db.
Proof.
  intros Ht Hne Hverify r own. subst r.
  unfold GET_api_animals, behind_authenticateToken.
  rewrite (authenticateToken_verified _ _ _ _ Ht Hne Hverify).
  unfold list_animals, select_animals_by_userId. simpl. fold own.
  split; [| split; [| split]].
  - destruct (String.eqb _ ""); [done |]. by destruct (db_fault env).
  - intros a. unfold own. rewrite filter_In, String.eqb_eq. done.
  - intros -> Hid. apply String.eqb_neq in Hid. by rewrite Hid.
  - destruct (String.eqb _ ""); [done |]. by destruct (db_fault env).
Qed.

(** The insert schema never looks at [userId]. *)
Lemma insertAnimalSchema_ignores_userId (m1 m2 : gmap string json) :
  delete "userId" m1 = delete "userId" m2 →
  insertAnimalSchema (JObj m1) = insertAnimalSchema (JObj m2).
Proof.
  intros Heq.
  assert (∀ k, k ≠ "userId" → m1 !! k = m2 !! k) as Hsame.
  { intros k Hk.
    rewrite <- (lookup_delete_ne m1 "userId" k),
            <- (lookup_delete_ne m2 "userId" k) by done.
    by rewrite Heq. }
  unfold insertAnimalSchema. by rewrite !Hsame.
Qed.

Lemma insert_animals_returned env db v row db' :
  insert_animals env db v = (returned row, db') →
  Animal.userId row = userId v ∧ animals db' = animals db ++ [row] ∧
  users db' = users db.
Proof.
  unfold insert_animals. destruct (db_fault env); [done |].
  repeat case_match; try done. by intros [= <- <-].
Qed.

(** C8. For every authenticated POST /api/animals request: a request that
    differs only in the [userId] field of its body gets the same result
    (same response, same database, same statement), and whenever an animal
    is inserted (201) the body passed [insertAnimalSchema], the inserted
    row is the one appended to the table and its [user_id] is the id of
    the verified token. *)
Theorem C8_animal_owner_is_token_id
    (env : Env) (db : Db) (req req' : Request) (m m' : gmap string json)
    (t : string) (u : JwtPayload.t) :
  header_token req = Some t → t ≠ "" →
  jwt_verify (JWT_SECRET env) (now env) t = Some u →
  authorization req' = authorization req →
  body req = JObj m → body req' = JObj m' →
  delete "userId" m' = delete "userId" m →
  POST_api_animals env db req' = POST_api_animals env db req ∧
  (∀ msg row,
     payload (response (POST_api_animals env db req))
     = message_animal msg row →
     (∃ data, insertAnimalSchema (body req) = success data) ∧
     status (response (POST_api_animals env db req)) = 201%Z ∧
     Animal.userId row = JwtPayload.id u ∧
     animals (db_after (POST_api_animals env db req))
     = animals db ++ [row]).
Proof.
  intros Ht Hne Hverify Hauth Hbody Hbody' Hsame.
  assert (header_token req' = Some t) as Ht'
    by (unfold header_token in *; by rewrite Hauth).
  unfold POST_api_animals, behind_authenticateToken.
  rewrite (authenticateToken_verified _ _ _ _ Ht Hne Hverify),
          (authenticateToken_verified _ _ _ _ Ht' Hne Hverify).
  unfold create_animal. simpl. rewrite Hbody, Hbody'.
  rewrite (insertAnimalSchema_ignores_userId _ _ Hsame).
  split; [done |].
  intros msg row. destruct (String.eqb _ ""); [done |].
  destruct (insertAnimalSchema (JObj m)) as [data|errs]; [| done].
  destruct (insert_animals _ _ _) as [[row'|e] db'] eqn:Hinsert; [| done].
  simpl. intros [= <- <-].
  apply insert_animals_returned in Hinsert as (Howner & Hrows & _).
  split; [by exists data |]. done.
Qed.

End Animals.

(* ===================================================================== *)
(** * The theorems at work on the sample data *)
(* ===================================================================== *)

Section OnTheSample.
Import Js Zod Pg Server Sample.
#[local] Existing Instance toy.

(** A header of one word, and a token nobody signed. *)
Lemma C1_authenticateToken_guards_witness :
  GET_api_animals env farm (request (Some "Bearer") JNull)
  = respond 401 (error "Token requerido") farm [] ∧
  POST_api_animals env farm (request (Some "Bearer forged") JNull)
  = respond 403 (error "Token inválido") farm [].
Proof.
  split.
  - refine (proj1 (C1_authenticateToken_guards GET_api_animals env farm
                     (request (Some "Bearer") JNull) _) _).
    + by left.
    + right. left. by exists "Bearer".
  - refine (proj1 (proj2 (C1_authenticateToken_guards POST_api_animals env
                            farm (request (Some "Bearer forged") JNull) _))
              "forged" _ _ _).
    + by right.
    + reflexivity.
    + discriminate.
    + reflexivity.
Defined.

(** Ana logs in with her password. *)
Lemma C2_login_issues_token_witness :
  POST_api_login env farm (request None (credentials "ana" "secret1"))
  = respond 200 (token ana_token) farm [select_from_users "ana"].
Proof.
  refine (proj1 (C2_login_issues_token env farm
                   (request None (credentials "ana" "secret1")) ana
                   _ _ _ _ _ _ _)).
  - apply (bool_decide_unpack _). by vm_compute.
  - by left.
  - reflexivity.
  - reflexivity.
  - reflexivity.
  - reflexivity.
  - reflexivity.
Defined.

(** A username that is stored and yet cannot log in: the empty one. *)
Lemma C2_empty_username_cannot_log_in :
  let signed_up :=
    POST_api_signup env initial
      (request None (registration "" "eva@finca.cr" "secret1")) in
  let stored :=
    {| User.id := "7d9f0c7e-0003"; User.username := "";
       User.passwordHash := "salt$1terces"; User.email := "eva@finca.cr";
       User.nombre := None; User.telefono := None;
       User.createdAt := Some 2000%Z; User.updatedAt := Some 2000%Z |} in
  let attempt := request None (credentials "" "secret1") in
  status (response signed_up) = 201%Z ∧
  users (db_after signed_up) = [stored] ∧
  prop (body attempt) "username" = Some (JStr (User.username stored)) ∧
  prop (body attempt) "password" = Some (JStr "secret1") ∧
  bcrypt_compare "secret1" (User.passwordHash stored) = true ∧
  response (POST_api_login env (db_after signed_up) attempt)
  = {| status := 400; payload := error "Usuario y contraseña requeridos" |}.
Proof. by vm_compute. Qed.

(** A password of four characters. *)
Lemma C3_signup_rejects_invalid_body_witness :
  ∃ errs,
    POST_api_signup env farm
      (request None (registration "eva" "eva@finca.cr" "secr"))
    = respond 400 (errors errs) farm [].
Proof.
  destruct (C3_signup_rejects_invalid_body env farm
              (request None (registration "eva" "eva@finca.cr" "secr")))
    as [Hfails Hanswer].
  destruct Hfails as [errs Herrs].
  - left. exists "secr". split; [reflexivity | simpl; lia].
  - exists errs. by apply Hanswer.
Defined.


(** Ana mistypes her password. *)
Lemma C5_login_failures_witness :
  POST_api_login env farm (request None (credentials "ana" "secret2"))
  = respond 401 (error "Credenciales inválidas") farm
      [select_from_users "ana"].
Proof.
  refine (proj2 (proj2 (proj2 (C5_login_failures env farm
            (request None (credentials "ana" "secret2")))))
            _ _ _ ana [] _ _); reflexivity.
Defined.

(** A username that is present and unknown, and yet answered 400. *)
Lemma C5_empty_username_is_400 :
  let attempt := request None (credentials "" "secret1") in
  prop (body attempt) "username" = Some (JStr "") ∧
  prop (body attempt) "password" = Some (JStr "secret1") ∧
  ¬ In "" (map User.username (users farm)) ∧
  response (POST_api_login env farm attempt)
  = {| status := 400; payload := error "Usuario y contraseña requeridos" |}.
Proof.
  repeat split; try reflexivity.
  intros [Hana | [Hluis | []]]; discriminate.
Qed.

(** A password that is not a string, against a stored user: bcryptjs
    throws and the handler answers 500. *)
Example login_number_as_password :
  response
    (POST_api_login env farm
       (request None (object [("username", JStr "ana");
                              ("password", JNum 123456)])))
  = {| status := 500; payload := error "Illegal arguments: number, string" |}.
Proof. reflexivity. Qed.

(** Ana lists her animals: the first and the third of the table. *)
Lemma C6_animals_of_requester_witness :
  response (GET_api_animals env farm (request (bearer ana_token) JNull))
  = {| status := 200;
       payload := animals_array [cow 1 ana "CR-001"; cow 3 ana "CR-003"] |}.
Proof.
  refine (proj1 (proj2 (proj2 (C6_animals_of_requester env farm
            (request (bearer ana_token) JNull) ana_token ana_payload
            _ _ _))) _ _).
  - reflexivity.
  - discriminate.
  - reflexivity.
  - reflexivity.
  - discriminate.
Defined.

(** The table [lotes] is one of the nine and has no [animal_id]. *)
Lemma C7_lotes_references_no_animal :
  List.length Schema.recordTables = 9%nat ∧
  In Schema.lotes Schema.recordTables ∧
  Schema.has_column "animal_id" Schema.lotes = false ∧
  forallb
    (λ t, Schema.cascades_to "animal_id" "animals" "id" t &&
          Schema.cascades_to "user_id" "users" "id" t)
    Schema.recordTables = false.
Proof.
  split; [reflexivity |]. split; [| split; reflexivity].
  do 7 right. by left.
Qed.

(** The second animal is deleted: its weighing and its place in the lot
    go with it. *)
Lemma C7_cascade_delete_witness :
  ∃ db',
    Store.delete herd "animals" (Store.has_id (Store.VInt 2)) = Some db' ∧
    (∀ r, In r (Store.rows db' "weight_records") →
          Store.cell r "animal_id" ≠ Store.VInt 2) ∧
    (∀ r, In r (Store.rows db' "lote_animals") →
          Store.cell r "animal_id" ≠ Store.VInt 2).
Proof.
  destruct (C7_cascade_delete herd "animals" "animal_id" (Store.VInt 2))
    as (_ & db' & Hrun & _ & Hclear).
  - discriminate.
  - exists (record [("id", Store.VInt 2); ("user_id", Store.VText "u2")]).
    split; [| reflexivity]. vm_compute. right. by left.
  - exists db'. split; [exact Hrun |].
    split; intros r Hr.
    + apply (Hclear Schema.weightRecords r); [| reflexivity | exact Hr].
      do 2 right. by left.
    + apply (Hclear Schema.loteAnimals r); [| reflexivity | exact Hr].
      do 10 right. by left.
Defined.

(** Ana registers a calf and names Luis, or nobody, as its owner: the
    same row either way, and it is hers. *)
Lemma C8_animal_owner_is_token_id_witness :
  POST_api_animals env farm
    (request (bearer ana_token) (JObj (calf (JStr (User.id luis)))))
  = POST_api_animals env farm (request (bearer ana_token) (JObj (calf JNull))) ∧
  ∃ row,
    payload (response (POST_api_animals env farm
                         (request (bearer ana_token) (JObj (calf JNull)))))
    = message_animal "Animal creado exitosamente" row ∧
    Animal.userId row = User.id ana.
Proof.
  destruct (C8_animal_owner_is_token_id env farm
              (request (bearer ana_token) (JObj (calf JNull)))
              (request (bearer ana_token) (JObj (calf (JStr (User.id luis)))))
              (calf JNull) (calf (JStr (User.id luis)))
              ana_token ana_payload) as [Hsame Hrow].
  - reflexivity.
  - discriminate.
  - reflexivity.
  - reflexivity.
  - reflexivity.
  - reflexivity.
  - by vm_compute.
  - split; [exact Hsame |].
    eexists. split; [reflexivity |].
    by eapply Hrow.
Defined.

(** Eva signs up. *)
Lemma C9_signup_returns_inserted_row_witness :
  ∃ row,
    response (POST_api_signup env farm
                (request None (registration "eva" "eva@finca.cr" "secret3")))
    = {| status := 201; payload := message_user "Usuario creado" row |} ∧
    User.passwordHash row = "salt$3terces".
Proof.
  destruct (C9_signup_returns_inserted_row env farm
              (request None (registration "eva" "eva@finca.cr" "secret3")))
    as (data & row & Hparse & Hrow & Hresponse & _).
  - reflexivity.
  - exists row. split; [exact Hresponse |].
    injection Hparse as <-. by rewrite Hrow.
Defined.

(** Searching the sample fincas for "ROBLE". *)
Lemma C10_filteredFincas_exact_witness :
  Fincas.selection (Fincas.wanted "ROBLE") fincas
    (Fincas.filteredFincas fincas "ROBLE") ∧
  Fincas.filteredFincas fincas "" = fincas.
Proof.
  destruct (C10_filteredFincas_exact fincas "ROBLE") as (Hsel & _ & Hall).
  by split.
Defined.

End OnTheSample.

(* ===================================================================== *)
(** * More about the server *)
(* ===================================================================== *)

Section ServerInvariants.
Context `{Externals}.
Import Js Zod Pg Server.

Lemma existsb_In {A B} (f : A → B) (eqb : B → B → bool) (l : list A) (b : B) :
  (∀ x y, eqb x y = true ↔ x = y) →
  existsb (λ r, eqb (f r) b) l = true ↔ In b (map f l).
Proof.
  intros Heqb. rewrite existsb_exists, in_map_iff. split.
  - intros (r & Hr & Heq). apply Heqb in Heq. by exists r.
  - intros (r & Heq & Hr). exists r. split; [done |]. by apply Heqb.
Qed.

Lemma existsb_not_In {A B} (f : A → B) (eqb : B → B → bool) (l : list A) (b : B) :
  (∀ x y, eqb x y = true ↔ x = y) →
  existsb (λ r, eqb (f r) b) l = false ↔ ¬ In b (map f l).
Proof.
  intros Heqb. rewrite <- (existsb_In f eqb l b Heqb).
  by destruct (existsb _ _).
Qed.

(** What an insert into [users] can do to the database. *)
Lemma insert_users_appends env db u e h o db' :
  insert_users env db u e h = (o, db') →
  animals db' = animals db ∧ animals_id_seq db' = animals_id_seq db ∧
  ((db' = db ∧ ∃ m, o = thrown m) ∨
   (∃ row, o = returned row ∧ users db' = users db ++ [row])).
Proof.
  unfold insert_users. destruct (db_fault env) as [m|].
  { intros [= <- <-]. repeat split. left. split; [done | by exists m]. }
  destruct (existsb _ _).
  { intros [= <- <-]. repeat split. left. split; [done | by eexists]. }
  destruct (existsb _ _).
  { intros [= <- <-]. repeat split. left. split; [done | by eexists]. }
  intros [= <- <-]. repeat split. right. by eexists.
Qed.

(** What an insert into [animals] can do to the database. *)
Lemma insert_animals_appends env db v o db' :
  insert_animals env db v = (o, db') →
  users db' = users db ∧
  ((animals db' = animals db ∧ ∃ m, o = thrown m) ∨
   (∃ row, o = returned row ∧ animals db' = animals db ++ [row])).
Proof.
  unfold insert_animals. destruct (db_fault env) as [m|].
  { intros [= <- <-]. split; [done |]. left. split; [done | by exists m]. }
  destruct (existsb _ _).
  { intros [= <- <-]. split; [done |]. left. split; [done | by eexists]. }
  destruct (existsb _ _).
  { intros [= <- <-]. split; [done |]. left. split; [done | by eexists]. }
  destruct (negb _).
  { intros [= <- <-]. split; [done |]. left. split; [done | by eexists]. }
  intros [= <- <-]. split; [done |]. right. by eexists.
Qed.

Lemma list_animals_reads_only env db req :
  db_after (GET_api_animals env db req) = db.
Proof.
  unfold GET_api_animals, behind_authenticateToken, list_animals,
    select_animals_by_userId.
  repeat case_match; done.
Qed.

(** X1. Every database the server can bring about from the empty one, by
    any sequence of requests to its four routes, satisfies the constraints
    the schema declares on [users] and [animals]: unique ids, unique
    usernames, unique animal codes, and every animal owned by a stored
    user. *)
Theorem X1_reachable_databases_keep_constraints (db : Db) :
  reachable db → consistent db.
Proof.
  induction 1 as [|route env db req Hroute _ IH].
  - split; simpl; try apply NoDup_nil_2.
    intros a Ha. by apply elem_of_nil in Ha.
  - by apply routes_keep_consistent.
Qed.

(** X2. No route ever removes or changes a stored row: after any request
    the rows of [users] and of [animals] are the rows before, followed by
    at most one new row in all. The login route and the listing route
    leave the whole database as it was. *)
Theorem X2_routes_only_append
    (route : Env → Db → Request → Result) (env : Env) (db : Db)
    (req : Request) :
  In route routes →
  (∃ new_users new_animals,
     users (db_after (route env db req)) = users db ++ new_users ∧
     animals (db_after (route env db req)) = animals db ++ new_animals ∧
     (List.length new_users + List.length new_animals ≤ 1)%nat) ∧
  db_after (POST_api_login env db req) = db ∧
  db_after (GET_api_animals env db req) = db.
Proof.
  intros Hroute.
  split; [| split; [apply login_reads_only | apply list_animals_reads_only]].
  assert (∀ d : Db, ∃ us as_ : list _,
            users d = users d ++ us ∧ animals d = animals d ++ as_ ∧
            (List.length us + List.length as_ ≤ 1)%nat) as Hsame.
  { intros d. exists [], []. rewrite !app_nil_r. simpl. auto. }
  destruct Hroute as [<- | [<- | [<- | [<- | []]]]].
  - unfold POST_api_signup, signup.
    destruct (insertUserSchema _); [| apply Hsame].
    destruct (insert_users _ _ _ _ _) as [o db'] eqn:Hinsert.
    apply insert_users_appends in Hinsert
      as (Ha & _ & [[-> [m ->]] | (row & -> & Hu)]).
    + destruct (includes _ _); apply Hsame.
    + exists [row], []. simpl. rewrite Hu, Ha, app_nil_r. auto.
  - rewrite login_reads_only. apply Hsame.
  - rewrite list_animals_reads_only. apply Hsame.
  - unfold POST_api_animals, behind_authenticateToken, create_animal.
    destruct (authenticateToken env req) as [|req']; [apply Hsame |].
    destruct (user req'); [| apply Hsame].
    destruct (String.eqb _ _); [apply Hsame |].
    destruct (insertAnimalSchema _); [| apply Hsame].
    destruct (insert_animals _ _ _) as [o db'] eqn:Hinsert.
    apply insert_animals_appends in Hinsert
      as (Hu & [[Ha [m ->]] | (row & -> & Ha)]); simpl.
    + exists [], []. rewrite Hu, Ha, !app_nil_r. simpl. auto.
    + exists [], [row]. simpl. rewrite Hu, Ha, app_nil_r. auto.
Qed.

End ServerInvariants.

Section Accounts.
Context `{Externals}.
Import Js Zod Pg Server.

(** X3. POST /api/signup answers 201 exactly when the body passes
    [insertUserSchema], the insert reaches the table, and neither the
    generated id nor the username is already stored. The email plays no
    part: a stored email does not prevent a signup. *)
Theorem X3_signup_succeeds_iff (env : Env) (db : Db) (req : Request) :
  status (response (POST_api_signup env db req)) = 201%Z ↔
  ∃ data,
    insertUserSchema (body req) = success data ∧
    db_fault env = None ∧
    ¬ In (gen_random_uuid env) (map User.id (users db)) ∧
    ¬ In (username data) (map User.username (users db)).
Proof.
  unfold POST_api_signup, signup.
  destruct (insertUserSchema (body req)) as [data|errs];
    [| split; [done | by intros (? & ? & _)]].
  unfold insert_users.
  destruct (db_fault env) as [m|].
  { split; [by destruct (includes _ _) | by intros (? & _ & ? & _)]. }
  destruct (existsb (λ r, String.eqb (User.id r) _) _) eqn:Hid.
  { split; [by destruct (includes _ _) |]. intros (? & _ & _ & Hfresh & _).
    apply (existsb_In User.id String.eqb) in Hid; [done |].
    apply String.eqb_eq. }
  destruct (existsb (λ r, String.eqb (User.username r) _) _) eqn:Hname.
  { split; [by destruct (includes _ _) |].
    intros (data' & [= <-] & _ & _ & Hfresh).
    apply (existsb_In User.username String.eqb) in Hname; [done |].
    apply String.eqb_eq. }
  split; [| done]. intros _. exists data.
  apply (existsb_not_In User.id String.eqb) in Hid; [| apply String.eqb_eq].
  apply (existsb_not_In User.username String.eqb) in Hname;
    [| apply String.eqb_eq].
  done.
Qed.

(** X4. POST /api/signup reads three fields of the body and nothing else:
    two bodies that are objects and agree on [username], [email] and
    [password] get the same answer and leave the same database, whatever
    else they carry ([id], [passwordHash], [nombre], ...). *)
Theorem X4_signup_reads_three_fields
    (env : Env) (db : Db) (req req' : Request) (m m' : gmap string json) :
  body req = JObj m → body req' = JObj m' →
  m !! "username" = m' !! "username" →
  m !! "email" = m' !! "email" →
  m !! "password" = m' !! "password" →
  POST_api_signup env db req = POST_api_signup env db req'.
Proof.
  intros Hb Hb' Hu He Hp. unfold POST_api_signup, signup.
  rewrite Hb, Hb'. unfold insertUserSchema. by rewrite Hu, He, Hp.
Qed.

(** X5. Who has signed up can log in: after a signup answered 201, a login
    with the same username and password, on the database the signup left,
    is answered 200 with a token for the id the signup generated, provided
    the username is not empty, [bcrypt.compare] accepts the password
    against its own hash, and the query reaches the table. *)
Theorem X5_signup_then_login
    (env env' : Env) (db : Db) (req req' : Request) (data : InsertUser) :
  insertUserSchema (body req) = success data →
  status (response (POST_api_signup env db req)) = 201%Z →
  username data ≠ "" →
  bcrypt_compare (password data) (bcrypt_hash (salt env) (password data))
  = true →
  prop (body req') "username" = Some (JStr (username data)) →
  prop (body req') "password" = Some (JStr (password data)) →
  db_fault env' = None →
  POST_api_login env' (db_after (POST_api_signup env db req)) req'
  = respond 200
      (token (jwt_sign (JWT_SECRET env') (now env') (gen_random_uuid env)
                (username data) one_hour))
      (db_after (POST_api_signup env db req))
      [select_from_users (username data)].
Proof.
  intros Hparse Hcreated Hname Hbcrypt Hu Hp Hfault.
  assert (password data ≠ "") as Hpw.
  { apply insertUserSchema_success in Hparse as (_ & _ & _ & Hlen).
    intros Heq. rewrite Heq in Hlen. simpl in Hlen. lia. }
  revert Hcreated. unfold POST_api_signup, signup. rewrite Hparse.
  unfold insert_users. destruct (db_fault env) as [m|];
    [by destruct (includes _ _) |].
  destruct (existsb (λ r, String.eqb (User.id r) _) _);
    [by destruct (includes _ _) |].
  destruct (existsb (λ r, String.eqb (User.username r) _) _) eqn:Hfresh;
    [by destruct (includes _ _) |].
  intros _. simpl.
  unfold POST_api_login, login, select_users_by_username.
  rewrite Hu, Hp, Hfault. simpl.
  apply String.eqb_neq in Hname, Hpw. rewrite Hname, Hpw. simpl.
  rewrite List.filter_app, filter_none.
  2:{ intros x Hx. by apply (existsb_none _ _ Hfresh). }
  simpl. rewrite String.eqb_refl. simpl. by rewrite Hbcrypt.
Qed.

(** X6. A token is only ever issued for a stored user: whenever POST
    /api/login answers with a token, some stored user has the username of
    the request, [bcrypt.compare] returned true for the password of the
    request against that user's [password_hash], the answer is 200, and
    the token is the one signed for that user's id and username, to expire
    in an hour. *)
Theorem X6_token_only_for_stored_user
    (env : Env) (db : Db) (req : Request) (t : string) :
  payload (response (POST_api_login env db req)) = token t →
  ∃ u,
    In u (users db) ∧
    User.username u = text_param (prop (body req) "username") ∧
    bcrypt_compare_any (prop (body req) "password") (User.passwordHash u)
    = returned true ∧
    status (response (POST_api_login env db req)) = 200%Z ∧
    t = jwt_sign (JWT_SECRET env) (now env) (User.id u) (User.username u)
          one_hour.
Proof.
  unfold POST_api_login, login, select_users_by_username.
  destruct (negb _ || negb _); [done |].
  destruct (db_fault env); [done |].
  destruct (List.filter _ _) as [|u rest] eqn:Hfound; [done |].
  destruct (bcrypt_compare_any _ _) as [[|]|] eqn:Hcompare; [| done | done].
  simpl. intros [= <-]. exists u.
  assert (In u (List.filter
                  (λ r, String.eqb (User.username r)
                          (text_param (prop (body req) "username")))
                  (users db))) as Hin by (rewrite Hfound; by left).
  apply filter_In in Hin as [Hin Heq]. apply String.eqb_eq in Heq.
  done.
Qed.

End Accounts.

Section Tokens.
Context `{Externals}.
Import Js Zod Pg Server.

Lemma append_nil_r (s : string) : s +:+ "" = s.
Proof.
  induction s as [|a s IH]; [done |]. by rewrite append_cons, IH.
Qed.

(** The second field of a header is what lies between its first space and
    the next one, or the end. *)
Lemma second_field (scheme tok tail : string) :
  includes scheme " " = false → includes tok " " = false →
  tail = "" ∨ (∃ x, tail = " " +:+ x) →
  split " " (scheme +:+ " " +:+ tok +:+ tail) !! 1%nat = Some tok.
Proof.
  intros Hscheme Htok Htail.
  change (scheme +:+ " " +:+ tok +:+ tail)
    with (scheme +:+ String " " (tok +:+ tail)).
  rewrite (split_first " " scheme _ Hscheme). simpl.
  destruct Htail as [-> | [x ->]].
  - by rewrite append_nil_r, (split_without " " tok Htok).
  - change (tok +:+ " " +:+ x) with (tok +:+ String " " x).
    by rewrite (split_first " " tok x Htok).
Qed.

(** The handlers behind the middleware never look at the header again. *)
Lemma handlers_ignore_header env db a a' b u :
  list_animals env db {| authorization := a; body := b; user := u |}
  = list_animals env db {| authorization := a'; body := b; user := u |} ∧
  create_animal env db {| authorization := a; body := b; user := u |}
  = create_animal env db {| authorization := a'; body := b; user := u |}.
Proof. done. Qed.

(** X7. The middleware looks at the second space-separated field of the
    Authorization header and at nothing else: the scheme is not checked
    (any first word will do, not only Bearer) and whatever follows a
    second space is ignored. Two requests with the same body whose headers
    have the same second field get the same result from both protected
    routes. *)
Theorem X7_only_the_second_field_counts
    (env : Env) (db : Db) (req req' : Request)
    (scheme scheme' tok tail tail' : string) :
  includes scheme " " = false → includes scheme' " " = false →
  includes tok " " = false →
  tail = "" ∨ (∃ x, tail = " " +:+ x) →
  tail' = "" ∨ (∃ x, tail' = " " +:+ x) →
  authorization req = Some (scheme +:+ " " +:+ tok +:+ tail) →
  authorization req' = Some (scheme' +:+ " " +:+ tok +:+ tail') →
  body req' = body req →
  header_token req = Some tok ∧
  GET_api_animals env db req' = GET_api_animals env db req ∧
  POST_api_animals env db req' = POST_api_animals env db req.
Proof.
  intros Hs Hs' Htok Htail Htail' Hauth Hauth' Hbody.
  assert (header_token req = Some tok) as Ht
    by (unfold header_token; rewrite Hauth; by apply second_field).
  assert (header_token req' = Some tok) as Ht'
    by (unfold header_token; rewrite Hauth'; by apply second_field).
  split; [done |].
  unfold GET_api_animals, POST_api_animals, behind_authenticateToken,
    authenticateToken.
  rewrite Ht, Ht', Hbody. destruct tok as [|c tok]; [done |].
  destruct (jwt_verify _ _ _); [| done].
  split; apply handlers_ignore_header.
Qed.

(** X8. A token signed by the login route, sent as [Bearer <token>], opens
    the protected routes for one hour and not longer. Wherever decoding
    undoes encoding for this token, and the token is not empty and holds
    no space: before 3600 seconds have passed since it was issued the
    middleware calls the handler with the payload of the token, and GET
    /api/animals lists the animals of the token's user (when the id is not
    empty and the query reaches the table); from then on both routes
    answer 403 and send no statement. *)
Theorem X8_token_opens_routes_for_an_hour
    (env : Env) (db : Db) (req : Request) (id username : string)
    (issued : Z) :
  let claims :=
    {| JwtPayload.id := id; JwtPayload.username := username;
       JwtPayload.iat := issued; JwtPayload.exp := (issued + 3600)%Z |} in
  let t := jwt_sign (JWT_SECRET env) issued id username one_hour in
  jwt_decode (JWT_SECRET env) t = Some claims →
  includes t " " = false → t ≠ "" →
  authorization req = Some (Pages.Bearer t) →
  ((now env < issued + 3600)%Z →
   authenticateToken env req
   = next {| authorization := authorization req; body := body req;
             user := Some claims |} ∧
   (id ≠ "" → db_fault env = None →
    response (GET_api_animals env db req)
    = {| status := 200;
         payload :=
           animals_array
             (List.filter (λ a, String.eqb (Animal.userId a) id)
                (animals db)) |})) ∧
  ((issued + 3600 <= now env)%Z →
   GET_api_animals env db req = respond 403 (error "Token inválido") db [] ∧
   POST_api_animals env db req = respond 403 (error "Token inválido") db []).
Proof.
  intros claims t Hdecode Hspace Hne Hauth.
  assert (header_token req = Some t) as Ht.
  { unfold header_token. rewrite Hauth.
    replace (Pages.Bearer t) with ("Bearer" +:+ " " +:+ t +:+ "")
      by (by rewrite append_nil_r).
    apply second_field; [done | done | by left]. }
  split.
  - intros Hfresh.
    assert (jwt_verify (JWT_SECRET env) (now env) t = Some claims) as Hverify.
    { unfold jwt_verify. rewrite Hdecode. simpl.
      destruct (Z.leb_spec (issued + 3600) (now env)); [lia | done]. }
    split; [apply (authenticateToken_verified _ _ _ _ Ht Hne Hverify) |].
    intros Hid Hfault.
    unfold GET_api_animals, behind_authenticateToken.
    rewrite (authenticateToken_verified _ _ _ _ Ht Hne Hverify).
    unfold list_animals, select_animals_by_userId. simpl.
    apply String.eqb_neq in Hid. by rewrite Hid, Hfault.
  - intros Hstale.
    assert (jwt_verify (JWT_SECRET env) (now env) t = None) as Hverify.
    { unfold jwt_verify. rewrite Hdecode. simpl.
      destruct (Z.leb_spec (issued + 3600) (now env)); [done | lia]. }
    unfold GET_api_animals, POST_api_animals, behind_authenticateToken,
      authenticateToken.
    rewrite Ht, Hverify. by destruct t.
Qed.

(** X9. A verified token whose payload has an empty id gets no further than
    the first lines of the handlers: both protected routes answer 401
    "Usuario no autenticado." without sending a statement. *)
Theorem X9_empty_id_is_not_authenticated
    (env : Env) (db : Db) (req : Request) (t : string) (u : JwtPayload.t) :
  header_token req = Some t → t ≠ "" →
  jwt_verify (JWT_SECRET env) (now env) t = Some u →
  JwtPayload.id u = "" →
  GET_api_animals env db req
  = respond 401 (error "Usuario no autenticado.") db [] ∧
  POST_api_animals env db req
  = respond 401 (error "Usuario no autenticado.") db [].
Proof.
  intros Ht Hne Hverify Hid.
  unfold GET_api_animals, POST_api_animals, behind_authenticateToken.
  rewrite (authenticateToken_verified _ _ _ _ Ht Hne Hverify).
  unfold list_animals, create_animal. simpl. by rewrite Hid.
Qed.

End Tokens.

Section AnimalsMore.
Context `{Externals}.
Import Js Zod Pg Server.

Lemma insertAnimalSchema_required input data :
  insertAnimalSchema input = success data →
  prop input "codigoUnico" = Some (JStr (Zod.codigoUnico data)) ∧
  prop input "sexo" = Some (JStr (Zod.sexo data)).
Proof.
  destruct input as [| | | | |m]; try done.
  unfold insertAnimalSchema, prop.
  destruct (z_string "codigoUnico" _) as [?|c] eqn:Hc; [done |].
  destruct (z_string_nullish "nombre" _); [done |].
  destruct (z_string_nullish "raza" _); [done |].
  destruct (z_string "sexo" _) as [?|s] eqn:Hs; [done |].
  destruct (z_string_nullish "fechaNacimiento" _); [done |].
  apply z_string_inr in Hc, Hs. by intros [= <-].
Qed.

(** The handler of POST /api/animals once the token has verified. *)
Lemma create_animal_verified env db req t u :
  header_token req = Some t → t ≠ "" →
  jwt_verify (JWT_SECRET env) (now env) t = Some u →
  POST_api_animals env db req
  = create_animal env db
      {| authorization := authorization req; body := body req;
         user := Some u |}.
Proof.
  intros Ht Hne Hverify. unfold POST_api_animals, behind_authenticateToken.
  by rewrite (authenticateToken_verified _ _ _ _ Ht Hne Hverify).
Qed.


(** X11. POST /api/animals validates the body before it touches the
    database: for an authenticated request whose body fails
    [insertAnimalSchema] (which happens in particular when [codigoUnico] or
    [sexo] is missing or is not a string) the handler answers 400 with the
    issues, sends no statement, and leaves the database, its sequence
    included, as it was. *)
Theorem X11_animal_body_is_validated
    (env : Env) (db : Db) (req : Request) (t : string) (u : JwtPayload.t) :
  header_token req = Some t → t ≠ "" →
  jwt_verify (JWT_SECRET env) (now env) t = Some u →
  JwtPayload.id u ≠ "" →
  ((∀ s, prop (body req) "codigoUnico" ≠ Some (JStr s)) ∨
   (∀ s, prop (body req) "sexo" ≠ Some (JStr s)) →
   ∃ errs, insertAnimalSchema (body req) = failure errs) ∧
  (∀ errs, insertAnimalSchema (body req) = failure errs →
           POST_api_animals env db req = respond 400 (errors errs) db []).
Proof.
  intros Ht Hne Hverify Hid. split.
  - intros Hbad.
    destruct (insertAnimalSchema (body req)) as [data|errs] eqn:Hparse;
      [| by eexists].
    apply insertAnimalSchema_required in Hparse as [Hc Hs].
    destruct Hbad as [Hbad | Hbad]; by edestruct Hbad.
  - intros errs Hparse.
    rewrite (create_animal_verified _ _ _ _ _ Ht Hne Hverify).
    unfold create_animal. simpl.
    apply String.eqb_neq in Hid. by rewrite Hid, Hparse.
Qed.

(** X12. A rejected animal is answered 500, never 409, and the answer
    carries the message of the error the insert threw. For an authenticated
    request whose body is valid and whose insert reaches the table, if the
    [codigoUnico] is already stored, or the id of the token is the id of no
    stored user, PostgreSQL rejects the row with a message [m] and the
    handler answers exactly 500 with [err.message], the message the query
    throws for [m]; [m] is the unique violation of [animals_codigo_unico]
    when the code is stored and the foreign-key violation when it is not
    (the next id being free; the violation of [animals_pkey] when it is
    taken). Neither [animals] nor [users] changes; the sequence behind
    [animals.id] has moved on. *)
Theorem X12_animal_conflicts_answer_500
    (env : Env) (db : Db) (req : Request) (t : string) (u : JwtPayload.t)
    (data : InsertAnimal) :
  header_token req = Some t → t ≠ "" →
  jwt_verify (JWT_SECRET env) (now env) t = Some u →
  JwtPayload.id u ≠ "" →
  insertAnimalSchema (body req) = success data →
  db_fault env = None →
  In (Zod.codigoUnico data) (map Animal.codigoUnico (animals db)) ∨
  ¬ In (JwtPayload.id u) (map User.id (users db)) →
  let v := with_userId data (JwtPayload.id u) in
  let left_behind :=
    {| users := users db; animals := animals db;
       animals_id_seq := animals_id_seq db + 1 |} in
  ∃ m,
    insert_animals env db v = (thrown m, left_behind) ∧
    POST_api_animals env db req
    = respond 500 (error (query_error (insert_into_animals v) m))
        left_behind [insert_into_animals v] ∧
    (In (animals_id_seq db + 1)%Z (map Animal.id (animals db)) →
     m = unique_violation "animals_pkey") ∧
    (¬ In (animals_id_seq db + 1)%Z (map Animal.id (animals db)) →
     (In (Zod.codigoUnico data) (map Animal.codigoUnico (animals db)) →
      m = unique_violation "animals_codigo_unico_unique") ∧
     (¬ In (Zod.codigoUnico data) (map Animal.codigoUnico (animals db)) →
      m = foreign_key_violation "animals" "animals_user_id_users_id_fk")).
Proof.
  intros Ht Hne Hverify Hid Hparse Hfault Hconflict v left_behind.
  rewrite (create_animal_verified _ _ _ _ _ Ht Hne Hverify).
  unfold create_animal. simpl.
  apply String.eqb_neq in Hid. rewrite Hid, Hparse. fold v.
  unfold insert_animals. rewrite Hfault. cbv zeta.
  destruct (existsb (λ r, (Animal.id r =? _)%Z) _) eqn:Hkey.
  { eexists. split; [done |]. split; [done |]. split; [done |].
    intros Hfree.
    apply (existsb_In Animal.id Z.eqb) in Hkey; [done | apply Z.eqb_eq]. }
  apply (existsb_not_In Animal.id Z.eqb) in Hkey; [| apply Z.eqb_eq].
  destruct (existsb (λ r, String.eqb (Animal.codigoUnico r) _) _) eqn:Hcode.
  { eexists. split; [done |]. split; [done |]. split; [done |].
    intros _. split; [done |]. intros Hfresh.
    apply (existsb_In Animal.codigoUnico String.eqb) in Hcode;
      [done | apply String.eqb_eq]. }
  apply (existsb_not_In Animal.codigoUnico String.eqb) in Hcode;
    [| apply String.eqb_eq].
  destruct (existsb (λ r, String.eqb (User.id r) _) _) eqn:Howner.
  { destruct Hconflict as [Hdup | Hstranger]; [done |].
    apply (existsb_In User.id String.eqb) in Howner;
      [done | apply String.eqb_eq]. }
  eexists. split; [done |]. split; [done |]. split; [done |].
  intros _. split; [done |]. done.
Qed.

(** X13. The status codes of the four routes: signup answers 201, 400, 409
    or 500; login 200, 400, 401 or 500; the listing 200, 401, 403 or 500;
    the creation of an animal 201, 400, 401, 403 or 500; and nothing
    else. *)
Theorem X13_status_codes (env : Env) (db : Db) (req : Request) :
  In (status (response (POST_api_signup env db req))) [201; 400; 409; 500]%Z ∧
  In (status (response (POST_api_login env db req))) [200; 400; 401; 500]%Z ∧
  In (status (response (GET_api_animals env db req))) [200; 401; 403; 500]%Z ∧
  In (status (response (POST_api_animals env db req)))
    [201; 400; 401; 403; 500]%Z.
Proof.
  split; [| split; [| split]].
  - unfold POST_api_signup, signup.
    destruct (insertUserSchema _); [| simpl; auto].
    destruct (insert_users _ _ _ _ _) as [[row|m] db']; [simpl; auto |].
    destruct (includes _ _); simpl; auto.
  - unfold POST_api_login, login.
    destruct (negb _ || negb _); [simpl; auto |].
    destruct (select_users_by_username _ _ _) as [[|user rest]|];
      [simpl; auto | | simpl; auto].
    destruct (bcrypt_compare_any _ _) as [[|]|]; simpl; auto.
  - unfold GET_api_animals, behind_authenticateToken, authenticateToken.
    destruct (header_token req) as [[|c t]|]; [simpl; auto | | simpl; auto].
    destruct (jwt_verify _ _ _); [| simpl; auto].
    unfold list_animals. simpl.
    destruct (String.eqb _ _); [simpl; auto |].
    destruct (select_animals_by_userId _ _ _); simpl; auto.
  - unfold POST_api_animals, behind_authenticateToken, authenticateToken.
    destruct (header_token req) as [[|c t]|]; [simpl; auto | | simpl; auto].
    destruct (jwt_verify _ _ _); [| simpl; auto 6].
    unfold create_animal. simpl.
    destruct (String.eqb _ _); [simpl; auto |].
    destruct (insertAnimalSchema _); [| simpl; auto].
    destruct (insert_animals _ _ _) as [[row|m] db']; simpl; auto 6.
Qed.

End AnimalsMore.

(* ===================================================================== *)
(** * More about the pages *)
(* ===================================================================== *)

Section PagesAndServer.
Context `{Externals}.
Import Js Zod Pg Server Pages.

Lemma credentials_object_fields (u p : string) :
  prop (credentials_object u p) "username" = Some (JStr u) ∧
  prop (credentials_object u p) "password" = Some (JStr p) ∧
  prop (credentials_object u p) "email" = None.
Proof.
  unfold credentials_object, prop. split; [| split].
  - by rewrite lookup_insert_eq.
  - by rewrite lookup_insert_ne, lookup_insert_eq.
  - by rewrite !lookup_insert_ne.
Qed.

Lemma z_string_min_of_string n msg k s :
  z_string_min n msg k (Some (JStr s))
  = if (String.length s <? n)%nat then inl [too_small [k] msg] else inr s.
Proof. reflexivity. Qed.

(** The two schemas of the pages, on the object built from the form. *)
Lemma page_schema (u p : string) :
  registerSchema (credentials_object u p) = loginSchema (credentials_object u p) ∧
  ((String.length u < 3)%nat →
   ∃ rest, loginSchema (credentials_object u p)
           = failure (too_small ["username"]
                        "Usuario debe tener al menos 3 caracteres" :: rest)) ∧
  ((3 ≤ String.length u)%nat → (String.length p < 6)%nat →
   loginSchema (credentials_object u p)
   = failure [too_small ["password"]
                "Contraseña debe tener al menos 6 caracteres"]) ∧
  ((3 ≤ String.length u)%nat → (6 ≤ String.length p)%nat →
   loginSchema (credentials_object u p)
   = success {| username := u; password := p |}).
Proof.
  split; [done |].
  destruct (credentials_object_fields u p) as (Hu & Hp & _).
  unfold prop, credentials_object in Hu, Hp.
  unfold loginSchema, credentials_object.
  rewrite Hu, Hp, !z_string_min_of_string.
  destruct (Nat.ltb_spec (String.length u) 3),
           (Nat.ltb_spec (String.length p) 6);
    repeat split; intros; try lia; try done; by eexists.
Qed.

(** X14. The Register page cannot register anybody with this server. It
    sends [username] and [password] only, and the server requires [email]:
    whatever is typed, the page never navigates to /login. Input that fails
    the page's own schema gets its message and no request; input that
    passes it is answered 400 by POST /api/signup, with the single issue
    that [email] is required, nothing is stored, and the page shows
    "Error desconocido". *)
Theorem X14_register_page_cannot_register
    (env : Env) (db : Db) (fetch : Fetch) (u p : string) :
  let sent := {| authorization := None; body := credentials_object u p;
                 user := None |} in
  ¬ In (navigate "/login") (handleRegister (backend env db) u p) ∧
  ((String.length u < 3)%nat →
   handleRegister fetch u p
   = [setMessage "Usuario debe tener al menos 3 caracteres"]) ∧
  ((3 ≤ String.length u)%nat → (String.length p < 6)%nat →
   handleRegister fetch u p
   = [setMessage "Contraseña debe tener al menos 6 caracteres"]) ∧
  ((3 ≤ String.length u)%nat → (6 ≤ String.length p)%nat →
   POST_api_signup env db sent
   = respond 400 (errors [invalid_type ["email"] "string" None]) db [] ∧
   handleRegister (backend env db) u p = [setMessage "Error desconocido"]).
Proof.
  intros sent.
  destruct (page_schema u p) as (Hsame & Hshort & Hweak & Hgood).
  destruct (credentials_object_fields u p) as (Hu & Hp & He).
  assert ((3 ≤ String.length u)%nat → (6 ≤ String.length p)%nat →
          POST_api_signup env db sent
          = respond 400 (errors [invalid_type ["email"] "string" None]) db [])
    as Hserver.
  { intros Hlu Hlp. unfold POST_api_signup, signup, sent. simpl.
    unfold prop, credentials_object in Hu, Hp, He.
    unfold insertUserSchema, credentials_object.
    rewrite Hu, Hp, He, z_string_min_of_string.
    destruct (Nat.ltb_spec (String.length p) 6); [lia | done]. }
  assert ((3 ≤ String.length u)%nat → (6 ≤ String.length p)%nat →
          handleRegister (backend env db) u p
          = [setMessage "Error desconocido"]) as Hpage.
  { intros Hlu Hlp. unfold handleRegister. rewrite Hsame, (Hgood Hlu Hlp).
    unfold backend. simpl. fold sent. by rewrite (Hserver Hlu Hlp). }
  split; [| split; [| split]].
  - destruct (Nat.ltb_spec (String.length u) 3) as [Hlu | Hlu].
    { unfold handleRegister. rewrite Hsame.
      destruct (Hshort Hlu) as [rest ->]. simpl. by intros [? | []]. }
    destruct (Nat.ltb_spec (String.length p) 6) as [Hlp | Hlp].
    { unfold handleRegister. rewrite Hsame, (Hweak Hlu Hlp). simpl.
      by intros [? | []]. }
    rewrite (Hpage Hlu Hlp). by intros [? | []].
  - intros Hlu. unfold handleRegister. rewrite Hsame.
    by destruct (Hshort Hlu) as [rest ->].
  - intros Hlu Hlp. unfold handleRegister. by rewrite Hsame, (Hweak Hlu Hlp).
  - intros Hlu Hlp. split; [by apply Hserver | by apply Hpage].
Qed.

(** X15. The Login page and the server. A username shorter than 3
    characters is turned down by the page itself, without a request, even
    if such a user is stored. Input that passes the page's schema is never
    answered 400 by POST /api/login; when the answer carries a token that
    is not empty, the page stores it, hands it to [App] and navigates to
    /fincas, which [App] then renders with that token; when the query
    reaches the table and no stored user has the username, the page shows
    "Credenciales inválidas". *)
Theorem X15_login_page
    (env : Env) (db : Db) (fetch : Fetch) (u p : string) :
  let sent := {| authorization := None; body := credentials_object u p;
                 user := None |} in
  ((String.length u < 3)%nat →
   handleLogin fetch u p
   = [setMessage "Usuario debe tener al menos 3 caracteres"]) ∧
  ((3 ≤ String.length u)%nat → (6 ≤ String.length p)%nat →
   status (response (POST_api_login env db sent)) ≠ 400%Z ∧
   (∀ t, payload (response (POST_api_login env db sent)) = token t →
         t ≠ "" →
         handleLogin (backend env db) u p
         = [localStorage_setItem "token" t; setToken t; navigate "/fincas"] ∧
         App (Some t) "/fincas" = Fincas t) ∧
   (db_fault env = None → ¬ In u (map User.username (users db)) →
    handleLogin (backend env db) u p
    = [setMessage "Credenciales inválidas"])).
Proof.
  intros sent.
  destruct (page_schema u p) as (_ & Hshort & _ & Hgood).
  destruct (credentials_object_fields u p) as (Hu & Hp & _).
  split.
  { intros Hlu. unfold handleLogin. by destruct (Hshort Hlu) as [rest ->]. }
  intros Hlu Hlp.
  assert (u ≠ "") as Hune by (intros ->; simpl in Hlu; lia).
  assert (p ≠ "") as Hpne by (intros ->; simpl in Hlp; lia).
  apply String.eqb_neq in Hune, Hpne.
  assert (handleLogin (backend env db) u p
          = match data_token (payload (response (POST_api_login env db sent)))
            with
            | Some "" | None =>
                [setMessage
                   (or_else
                      (data_error
                         (payload (response (POST_api_login env db sent))))
                      "Error desconocido")]
            | Some t =>
                [localStorage_setItem "token" t; setToken t;
                 navigate "/fincas"]
            end) as Hpage.
  { unfold handleLogin. by rewrite (Hgood Hlu Hlp). }
  split; [| split].
  - unfold POST_api_login, login, sent. cbn [body]. rewrite Hu, Hp.
    cbn [truthy]. rewrite Hune, Hpne. simpl.
    destruct (select_users_by_username _ _ _) as [[|user rest]|]; [done | | done].
    by destruct (bcrypt_compare (p) _).
  - intros t Htoken Hne. rewrite Hpage, Htoken. simpl.
    by destruct t.
  - intros Hfault Hunknown. rewrite Hpage.
    unfold POST_api_login, login, select_users_by_username, sent.
    cbn [body]. rewrite Hu, Hp, Hfault.
    cbn [truthy]. rewrite Hune, Hpne. simpl.
    rewrite filter_none; [done |].
    intros x Hx. apply String.eqb_neq. intros Heq. apply Hunknown.
    rewrite <- Heq. by apply in_map.
Qed.

End PagesAndServer.

Section Search.
Import Js Fincas.

Lemma append_assoc (s t u : string) : (s +:+ t) +:+ u = s +:+ t +:+ u.
Proof.
  induction s as [|a s IH]; [done |]. by rewrite !append_cons, IH.
Qed.

(** What contains a string contains its substrings. *)
Lemma includes_substring (s t1 t2 : string) :
  is_substring t1 t2 → includes s t2 = true → includes s t1 = true.
Proof.
  intros (a & b & ->). rewrite !includes_spec.
  intros (pre & post & ->). exists (pre +:+ a), (b +:+ post).
  by rewrite !append_assoc.
Qed.

Lemma filter_filter_implied {A} (f g : A → bool) (l : list A) :
  (∀ x, g x = true → f x = true) →
  List.filter g (List.filter f l) = List.filter g l.
Proof.
  intros Himp. induction l as [|a l IH]; [done |]. simpl.
  destruct (f a) eqn:Hf; simpl.
  - by rewrite IH.
  - destruct (g a) eqn:Hg; [| done]. apply Himp in Hg. congruence.
Qed.

(** X16. A search term that contains another, once both are in lower case,
    only narrows the list of the Fincas page: when the lowercased [t1]
    occurs in the lowercased [t2], every finca shown for [t2] is shown for
    [t1], and the list for [t2] is what searching for [t2] among the fincas
    shown for [t1] gives. The condition is on the lowercased terms, as the
    page compares them: nothing is assumed of what [toLowerCase] does to a
    term that is extended. *)
Theorem X16_containing_term_narrows
    (fincas : list Finca) (t1 t2 : string) :
  includes (toLowerCase t2) (toLowerCase t1) = true →
  filteredFincas (filteredFincas fincas t1) t2 = filteredFincas fincas t2 ∧
  (∀ f, In f (filteredFincas fincas t2) → In f (filteredFincas fincas t1)).
Proof.
  intros Hlower. apply includes_spec in Hlower.
  assert (∀ f, matches t2 f = true → matches t1 f = true) as Himp.
  { intros f. unfold matches. rewrite !orb_true_iff.
    intros [Hn | Hl]; [left | right];
      by apply (includes_substring _ _ _ Hlower). }
  split.
  - unfold filteredFincas. by apply filter_filter_implied.
  - intros f. unfold filteredFincas. rewrite !filter_In.
    intros [Hin Hm]. split; [done | by apply Himp].
Qed.

End Search.

(* ===================================================================== *)
(** * More about the schema *)
(* ===================================================================== *)

Section RelationsFacts.
Import Schema Relations.

(** X17. The relations of [schema.ts] and its foreign keys say the same.
    Every [one(...)] names a column of its table that references exactly
    the column of the target it claims, and the target declares a
    [many(...)] back; every [many(...)] is answered by a [one(...)] of its
    target; and every foreign key of the eleven tables is declared as a
    [one(...)] of its table, and as a [many(...)] of the table it
    references. *)
Theorem X17_relations_match_foreign_keys :
  (∀ t rs name r,
     In (t, rs) declared → In (name, r) rs → backed t r = true) ∧
  (∀ t key c,
     In t schema → In (key, c) (columns t) → related t key c = true) ∧
  map (λ d : Table * list (string * Relation), tableName d.1) declared
  = map tableName schema.
Proof.
  split; [| split; [| reflexivity]].
  - intros t rs name r Hd Hr.
    assert (forallb
              (λ d : Table * list (string * Relation),
                 forallb (λ nr : string * Relation, backed d.1 nr.2) d.2)
              declared = true) as Hall by by vm_compute.
    rewrite forallb_forall in Hall. specialize (Hall _ Hd). simpl in Hall.
    rewrite forallb_forall in Hall. apply (Hall _ Hr).
  - intros t key c Ht Hc.
    assert (forallb
              (λ t : Table,
                 forallb (λ kc : string * Column, related t kc.1 kc.2)
                   (columns t))
              schema = true) as Hall by by vm_compute.
    rewrite forallb_forall in Hall. specialize (Hall _ Ht).
    rewrite forallb_forall in Hall. apply (Hall _ Hc).
Qed.

End RelationsFacts.

Section IntegrityFacts.
Import Schema Store Integrity.

Lemma check_sound sch (db : Database) : check sch db = true → holds sch db.
Proof.
  intros Hcheck child col r row Hfk Hrow Hnotnull.
  unfold check in Hcheck. rewrite forallb_forall in Hcheck.
  specialize (Hcheck _ Hfk). simpl in Hcheck.
  rewrite forallb_forall in Hcheck. specialize (Hcheck _ Hrow).
  destruct (cell row col) as [|z|s] eqn:Hcell; [done | |];
    apply existsb_exists in Hcheck as (g & Hg & Heq);
    apply bool_decide_eq_true in Heq; by exists g.
Qed.

(** A cascading foreign key makes its table a child of the table it
    references. *)
Lemma foreign_key_child sch child col r :
  all_cascade sch = true → In (child, col, r) (foreign_keys sch) →
  In (child, col, ref_column r) (cascading_children sch (ref_table r)).
Proof.
  intros Hall Hfk.
  unfold all_cascade in Hall. rewrite forallb_forall in Hall.
  specialize (Hall _ Hfk). simpl in Hall.
  unfold foreign_keys in Hfk. unfold cascading_children.
  apply in_flat_map in Hfk as (t & Ht & Hfk).
  apply in_flat_map in Hfk as (kc & Hkc & Hfk).
  apply in_flat_map. exists t. split; [done |].
  apply in_flat_map. exists kc. split; [done |].
  destruct (foreignKey kc.2) as [r'|]; [| done].
  destruct Hfk as [[= <- <- <-] | []].
  destruct (ref_onDelete r'); [| done].
  rewrite String.eqb_refl. by left.
Qed.


Lemma cascade_into_survives fuel sch gone children (db db' : Database) :
  (∀ d d' t f, delete_where fuel sch d t f = Some d' → survives sch d d') →
  cascade_into (λ d, delete_where fuel sch d) gone children db = Some db' →
  survives sch db db'.
Proof.
  intros Hdel. revert db.
  induction children as [|[[c0 col0] key0] rest IH]; intros db Hrun; simpl in Hrun.
  - injection Hrun as <-. intros child col r row g _ _ _ Hg Hkey. by exists g.
  - destruct (delete_where fuel sch db c0 (refers_any col0 key0 gone))
      as [d1|] eqn:Hd1; [| discriminate].
    intros child col r row g Hfk Hrow Hnotnull Hg Hkey.
    assert (In row (rows d1 child)) as Hrow1.
    { eapply cascade_into_shrinks; [| exact Hrun | exact Hrow].
      intros ????. apply delete_where_shrinks. }
    destruct (Hdel _ _ _ _ Hd1 child col r row g Hfk Hrow1 Hnotnull Hg Hkey)
      as (g1 & Hg1 & Hkey1).
    by apply (IH d1 Hrun child col r row g1).
Qed.

Lemma delete_where_survives fuel sch (db db' : Database) t doomed :
  all_cascade sch = true →
  delete_where fuel sch db t doomed = Some db' → survives sch db db'.
Proof.
  intros Hall. revert db db' t doomed.
  induction fuel as [|fuel IH]; intros db db' t doomed Hrun; [discriminate |].
  intros child col r row g Hfk Hrow Hnotnull Hg Hkey.
  assert (Hrun' := Hrun). simpl in Hrun'.
  assert (In g (rows (<[t := List.filter (λ r0, negb (doomed r0)) (rows db t)]> db)
                  (ref_table r)) ∨
          (t = ref_table r ∧ doomed g = true)) as [Hstays | [Ht Hdoomed]].
  { rewrite rows_insert. destruct (decide (t = ref_table r)) as [Ht|]; [| by left].
    destruct (doomed g) eqn:Hd; [by right |]. left.
    apply filter_In. rewrite Hd. subst t. done. }
  - eapply (cascade_into_survives fuel sch _ _ _ _ (λ d d' t0 f, IH d d' t0 f)
              Hrun'); eauto.
  - exfalso.
    assert (refers col (ref_column r) g row = false) as Hclear.
    { eapply (delete_where_clears _ _ _ _ _ _ Hrun child col (ref_column r));
        [| | exact Hdoomed | exact Hrow].
      - rewrite Ht. by apply foreign_key_child.
      - by rewrite Ht. }
    unfold refers in Hclear. rewrite <- Hkey in Hclear, Hnotnull.
    destruct (cell g (ref_column r)); [done | |];
      by rewrite bool_decide_eq_false in Hclear.
Qed.

(** X18. Deleting rows keeps the foreign keys intact. In a database of the
    eleven tables in which every referencing column that is not NULL holds
    the key of a row of the table it references, a [DELETE] on any table,
    with any condition, returns, and in the database it leaves every
    foreign key still holds: the cascade takes every row that referenced a
    deleted row, however long the chain (a user's animals, their records,
    the user's lots, their entries). *)
Theorem X18_delete_keeps_foreign_keys
    (db : Database) (t : string) (doomed : Row → bool) :
  holds schema db →
  ∃ db', delete db t doomed = Some db' ∧ holds schema db'.
Proof.
  intros Hdb. destruct (delete_total db t doomed) as [db' Hrun].
  exists db'. split; [done |].
  intros child col r row Hfk Hrow Hnotnull.
  assert (In row (rows db child)) as Hrow0
    by (eapply delete_where_shrinks; [exact Hrun | exact Hrow]).
  destruct (Hdb child col r row Hfk Hrow0 Hnotnull) as (g & Hg & Hkey).
  eapply (delete_where_survives _ _ _ _ _ _ (eq_refl : all_cascade schema = true)
            Hrun); eauto.
Qed.

End IntegrityFacts.

Section DeletingAnimals.
Import Schema Store Integrity.

Lemma delete_where_leaf_eq fuel sch (db : Database) t doomed :
  cascading_children sch t = [] →
  delete_where (S fuel) sch db t doomed
  = Some (<[t := List.filter (λ r, negb (doomed r)) (rows db t)]> db).
Proof. intros Hleaf. simpl. by rewrite Hleaf. Qed.

Lemma delete_where_step fuel sch (db : Database) t doomed :
  delete_where (S fuel) sch db t doomed
  = cascade_into (λ d, delete_where fuel sch d)
      (List.filter doomed (rows db t)) (cascading_children sch t)
      (<[t := List.filter (λ r, negb (doomed r)) (rows db t)]> db).
Proof. reflexivity. Qed.

(** X19. Deleting animals deletes exactly what depends on them. A [DELETE]
    on [animals] returns a database in which [animals] has lost the rows
    that met the condition and nothing else, each of the eight tables that
    reference an animal has lost the rows whose [animal_id] is the id of a
    deleted animal and nothing else, and every other table ([users],
    [lotes], ...) is as it was. *)
Theorem X19_deleting_animals_exactly (db : Database) (doomed : Row → bool) :
  ∃ db',
    delete db "animals" doomed = Some db' ∧
    rows db' "animals"
    = List.filter (λ r, negb (doomed r)) (rows db "animals") ∧
    (∀ t, In t tables_of_an_animal →
          rows db' t
          = List.filter
              (λ r, negb (refers_any "animal_id" "id"
                            (List.filter doomed (rows db "animals")) r))
              (rows db t)) ∧
    (∀ t, t ≠ "animals" → ¬ In t tables_of_an_animal →
          rows db' t = rows db t).
Proof.
  unfold delete. change (List.length schema) with 11%nat.
  rewrite delete_where_step.
  change (cascading_children schema "animals")
    with [ ("weight_records", "animal_id", "id");
           ("health_records", "animal_id", "id");
           ("vaccinations", "animal_id", "id");
           ("pest_control", "animal_id", "id");
           ("reproduction", "animal_id", "id");
           ("feeding", "animal_id", "id");
           ("traceability", "animal_id", "id");
           ("lote_animals", "animal_id", "id") ].
  set (gone := List.filter doomed (rows db "animals")).
  cbn [cascade_into].
  do 8 (rewrite delete_where_leaf_eq by reflexivity).
  eexists. split; [reflexivity |].
  split; [| split].
  - repeat (rewrite rows_insert;
            first [rewrite decide_True by done | rewrite decide_False by done]).
    done.
  - intros t Ht. unfold tables_of_an_animal in Ht.
    repeat (destruct Ht as [<- | Ht]);
      [ .. | destruct Ht ];
      repeat (rewrite rows_insert;
              first [rewrite decide_True by done
                    | rewrite decide_False by done]);
      done.
  - intros t Hanimals Hother.
    repeat (rewrite rows_insert; rewrite decide_False;
            [| intros <-; first [done | apply Hother; simpl; tauto]]).
    done.
Qed.

End DeletingAnimals.

Section Session.
Context `{Externals}.
Import Js Zod Pg Server Pages.

(** X20. Logging out forgets the token in [localStorage] and shows the
    Login page, and no more than that. The token state of [App] is not
    touched: going back to /fincas without reloading still renders the
    Fincas page with the old token, and only a reload redirects to
    /login. *)
Theorem X20_logout_keeps_the_session (b : Browser) (t : string) :
  app_token b = Some t → t ≠ "" →
  let out := run b handleLogout in
  stored_token out = None ∧
  shown out = Login ∧
  shown (run out [navigate "/fincas"]) = Fincas t ∧
  shown (run (reload out) [navigate "/fincas"]) = Navigate "/login".
Proof.
  intros Htoken Hne out.
  split; [done |]. split; [done |]. split; [| done].
  unfold shown, out. simpl. rewrite Htoken. by destruct t.
Qed.

(** X21. Each request costs the database at most one statement, and a
    request that is turned away costs it none: whatever the route, at most
    one statement is sent; none is sent when the answer is 400 or 403, nor
    when a protected route answers 401. *)
Theorem X21_rejected_requests_send_nothing
    (route : Env → Db → Request → Result) (env : Env) (db : Db)
    (req : Request) :
  In route routes →
  let r := route env db req in
  (List.length (statements r) ≤ 1)%nat ∧
  (status (response r) = 400%Z ∨ status (response r) = 403%Z →
   statements r = [] ∧ db_after r = db) ∧
  (status (response (GET_api_animals env db req)) = 401%Z →
   statements (GET_api_animals env db req) = []) ∧
  (status (response (POST_api_animals env db req)) = 401%Z →
   statements (POST_api_animals env db req) = []).
Proof.
  intros Hroute r. subst r.
  assert (∀ code b sent,
            (List.length sent ≤ 1)%nat → (code ≠ 400 ∧ code ≠ 403)%Z →
            (List.length (statements (respond code b db sent)) ≤ 1)%nat ∧
            (status (response (respond code b db sent)) = 400%Z ∨
             status (response (respond code b db sent)) = 403%Z →
             statements (respond code b db sent) = [] ∧
             db_after (respond code b db sent) = db)) as Hsent.
  { intros code b sent Hlen [H400 H403]. simpl. split; [done |].
    intros [? | ?]; done. }
  assert (∀ code b,
            (List.length (statements (respond code b db [])) ≤ 1)%nat ∧
            (status (response (respond code b db [])) = 400%Z ∨
             status (response (respond code b db [])) = 403%Z →
             statements (respond code b db []) = [] ∧
             db_after (respond code b db []) = db)) as Hnone.
  { intros code b. simpl. split; [lia | done]. }
  assert ((List.length (statements (route env db req)) ≤ 1)%nat ∧
          (status (response (route env db req)) = 400%Z ∨
           status (response (route env db req)) = 403%Z →
           statements (route env db req) = [] ∧
           db_after (route env db req) = db)) as [Hone Hturned].
  { destruct Hroute as [<- | [<- | [<- | [<- | []]]]].
    + unfold POST_api_signup, signup.
      destruct (insertUserSchema _); [| apply Hnone].
      destruct (insert_users _ _ _ _ _) as [[row|m] db'] eqn:Hinsert.
      * simpl. split; [lia |]. intros [? | ?]; done.
      * apply insert_users_thrown in Hinsert as ->.
        destruct (includes _ _); apply Hsent; simpl; try lia; done.
    + unfold POST_api_login, login.
      destruct (negb _ || negb _); [apply Hnone |].
      destruct (select_users_by_username _ _ _) as [[|user rest]|];
        try (apply Hsent; simpl; try lia; done).
      destruct (bcrypt_compare_any _ _) as [[|]|];
        apply Hsent; simpl; try lia; done.
    + unfold GET_api_animals, behind_authenticateToken, authenticateToken.
      destruct (header_token req) as [[|c t]|]; try apply (Hnone 401%Z).
      destruct (jwt_verify _ _ _); [| apply (Hnone 403%Z)].
      unfold list_animals. simpl.
      destruct (String.eqb _ _); [apply (Hnone 401%Z) |].
      destruct (select_animals_by_userId _ _ _);
        apply Hsent; simpl; try lia; done.
    + unfold POST_api_animals, behind_authenticateToken, authenticateToken.
      destruct (header_token req) as [[|c t]|]; try apply (Hnone 401%Z).
      destruct (jwt_verify _ _ _); [| apply (Hnone 403%Z)].
      unfold create_animal. simpl.
      destruct (String.eqb _ _); [apply (Hnone 401%Z) |].
      destruct (insertAnimalSchema _); [| apply Hnone].
      destruct (insert_animals _ _ _) as [[row|m] db'];
        simpl; (split; [lia |]); intros [? | ?]; done. }
  split; [exact Hone |]. split; [exact Hturned |]. split.
  - unfold GET_api_animals, behind_authenticateToken, authenticateToken.
    destruct (header_token req) as [[|c t]|]; try done.
    destruct (jwt_verify _ _ _); [| done].
    unfold list_animals. simpl.
    destruct (String.eqb _ _); [done |].
    by destruct (select_animals_by_userId _ _ _).
  - unfold POST_api_animals, behind_authenticateToken, authenticateToken.
    destruct (header_token req) as [[|c t]|]; try done.
    destruct (jwt_verify _ _ _); [| done].
    unfold create_animal. simpl.
    destruct (String.eqb _ _); [done |].
    destruct (insertAnimalSchema _); [| done].
    by destruct (insert_animals _ _ _) as [[row|m] db'].
Qed.

End Session.

(* ===================================================================== *)
(** * The further theorems at work on the sample data *)
(* ===================================================================== *)

Section MoreOnTheSample.
Import Js Zod Pg Server Sample.
#[local] Existing Instance toy.

(** Eva has signed up: the constraints hold in the database she left. *)
Lemma X1_reachable_databases_keep_constraints_witness :
  consistent
    (db_after (POST_api_signup env initial
                 (request None (registration "eva" "eva@finca.cr" "secret3")))).
Proof.
  apply X1_reachable_databases_keep_constraints.
  apply (reachable_request POST_api_signup env initial).
  - by left.
  - apply reachable_initial.
Defined.

(** Ana registers a calf: her rows and those of Luis stay, one is added. *)
Lemma X2_routes_only_append_witness :
  ∃ new_users new_animals,
    users (db_after (POST_api_animals env farm
                       (request (bearer ana_token) (JObj (calf JNull)))))
    = users farm ++ new_users ∧
    animals (db_after (POST_api_animals env farm
                         (request (bearer ana_token) (JObj (calf JNull)))))
    = animals farm ++ new_animals ∧
    (List.length new_users + List.length new_animals ≤ 1)%nat.
Proof.
  refine (proj1 (X2_routes_only_append POST_api_animals env farm
                   (request (bearer ana_token) (JObj (calf JNull))) _)).
  do 3 right. by left.
Defined.

(** Eva signs up with the email of Ana. *)
Lemma X3_signup_succeeds_iff_witness :
  status (response (POST_api_signup env farm
                      (request None (registration "eva" "ana@finca.cr"
                                       "secret3")))) = 201%Z.
Proof.
  apply X3_signup_succeeds_iff.
  exists {| username := "eva"; email := "ana@finca.cr"; password := "secret3" |}.
  split; [reflexivity |]. split; [reflexivity |].
  split; simpl; intros [? | [? | []]]; discriminate.
Defined.

(** Eva sends an id and a hash of her own choosing along. *)
Lemma X4_signup_reads_three_fields_witness :
  POST_api_signup env farm
    (request None (registration "eva" "eva@finca.cr" "secret3"))
  = POST_api_signup env farm
      (request None
         (object [("username", JStr "eva"); ("email", JStr "eva@finca.cr");
                  ("password", JStr "secret3"); ("id", JStr "7d9f0c7e-0001");
                  ("passwordHash", JStr "salt$1terces")])).
Proof.
  eapply X4_signup_reads_three_fields; reflexivity.
Defined.

(** Eva signs up, then logs in. *)
Lemma X5_signup_then_login_witness :
  status
    (response
       (POST_api_login env
          (db_after (POST_api_signup env farm
                       (request None (registration "eva" "eva@finca.cr"
                                        "secret3"))))
          (request None (credentials "eva" "secret3")))) = 200%Z.
Proof.
  rewrite (X5_signup_then_login env env farm
             (request None (registration "eva" "eva@finca.cr" "secret3"))
             (request None (credentials "eva" "secret3"))
             {| username := "eva"; email := "eva@finca.cr";
                password := "secret3" |});
    try reflexivity.
  discriminate.
Defined.

(** The token Ana gets is hers. *)
Lemma X6_token_only_for_stored_user_witness :
  ∃ u, In u (users farm) ∧ User.username u = "ana" ∧
       ana_token = jwt_sign "s3cr3t" 2000 (User.id u) (User.username u) one_hour.
Proof.
  destruct (X6_token_only_for_stored_user env farm
              (request None (credentials "ana" "secret1")) ana_token)
    as (u & Hu & Hname & _ & _ & Htoken).
  - reflexivity.
  - exists u. split; [exact Hu |]. split; [exact Hname | exact Htoken].
Defined.

(** [Token] instead of [Bearer], and a trailing word. *)
Lemma X7_only_the_second_field_counts_witness :
  GET_api_animals env farm
    (request (Some ("Token " +:+ ana_token +:+ " please")) JNull)
  = GET_api_animals env farm (request (bearer ana_token) JNull).
Proof.
  refine (proj1 (proj2 (X7_only_the_second_field_counts env farm
            (request (bearer ana_token) JNull)
            (request (Some ("Token " +:+ ana_token +:+ " please")) JNull)
            "Bearer" "Token" ana_token "" " please" _ _ _ _ _ _ _ _))).
  - reflexivity.
  - reflexivity.
  - reflexivity.
  - by left.
  - right. by exists "please".
  - reflexivity.
  - reflexivity.
  - reflexivity.
Defined.

(** Ana's token, issued at 2000: good at 2000, stale at 5600. *)
Lemma X8_token_opens_routes_for_an_hour_witness :
  authenticateToken env (request (bearer ana_token) JNull)
  = next {| authorization := bearer ana_token; body := JNull;
            user := Some ana_payload |} ∧
  GET_api_animals
    {| JWT_SECRET := "s3cr3t"; now := 5600; gen_random_uuid := "";
       salt := ""; db_fault := None |}
    farm (request (bearer ana_token) JNull)
  = respond 403 (error "Token inválido") farm [].
Proof.
  split.
  - refine (proj1 (proj1 (X8_token_opens_routes_for_an_hour env farm
              (request (bearer ana_token) JNull) (User.id ana) "ana" 2000
              _ _ _ _) _)).
    + reflexivity.
    + reflexivity.
    + discriminate.
    + reflexivity.
    + simpl. lia.
  - refine (proj1 (proj2 (X8_token_opens_routes_for_an_hour
              {| JWT_SECRET := "s3cr3t"; now := 5600; gen_random_uuid := "";
                 salt := ""; db_fault := None |}
              farm (request (bearer ana_token) JNull) (User.id ana) "ana" 2000
              _ _ _ _) _)).
    + reflexivity.
    + reflexivity.
    + discriminate.
    + reflexivity.
    + simpl. lia.
Defined.

(** A token that verifies and names nobody. *)
Lemma X9_empty_id_is_not_authenticated_witness :
  @GET_api_animals toy_nobody env farm (request (Some "Bearer nobody") JNull)
  = respond 401 (error "Usuario no autenticado.") farm [].
Proof.
  refine (proj1 (@X9_empty_id_is_not_authenticated toy_nobody env farm
                   (request (Some "Bearer nobody") JNull) "nobody" nobody
                   _ _ _ _)).
  - reflexivity.
  - discriminate.
  - reflexivity.
  - reflexivity.
Defined.


(** Ana forgets the sex of the calf. *)
Lemma X11_animal_body_is_validated_witness :
  ∃ errs,
    POST_api_animals env farm
      (request (bearer ana_token) (object [("codigoUnico", JStr "CR-004")]))
    = respond 400 (errors errs) farm [].
Proof.
  destruct (X11_animal_body_is_validated env farm
              (request (bearer ana_token)
                 (object [("codigoUnico", JStr "CR-004")]))
              ana_token ana_payload) as [Hfails Hanswer];
    try reflexivity; try discriminate.
  destruct Hfails as [errs Herrs].
  - right. intros s. discriminate.
  - exists errs. by apply Hanswer.
Defined.

(** Ana registers a calf under the code of her first cow. *)
Lemma X12_animal_conflicts_answer_500_witness :
  POST_api_animals env farm (request (bearer ana_token) (JObj twin))
  = respond 500 (error (unique_violation "animals_codigo_unico_unique"))
      {| users := users farm; animals := animals farm; animals_id_seq := 4 |}
      [insert_into_animals
         {| Pg.userId := User.id ana; Pg.codigoUnico := "CR-001";
            Pg.nombre := None; Pg.raza := None; Pg.sexo := "M";
            Pg.fechaNacimiento := None |}].
Proof.
  destruct (X12_animal_conflicts_answer_500 env farm
              (request (bearer ana_token) (JObj twin))
              ana_token ana_payload
              {| Zod.codigoUnico := "CR-001"; Zod.nombre := None;
                 Zod.raza := None; Zod.sexo := "M";
                 Zod.fechaNacimiento := None |})
    as (m & _ & Hanswer & _ & Hfree).
  - reflexivity.
  - discriminate.
  - reflexivity.
  - discriminate.
  - reflexivity.
  - reflexivity.
  - left. by left.
  - destruct Hfree as [Hm _].
    + simpl. intros [? | [? | [? | []]]]; discriminate.
    + rewrite Hanswer, Hm; [reflexivity | by left].
Defined.

(** Eva fills in the Register page. *)
Lemma X14_register_page_cannot_register_witness :
  Pages.handleRegister (Pages.backend env farm) "eva" "secret3"
  = [Pages.setMessage "Error desconocido"] ∧
  Pages.handleRegister offline "ev" "secret3"
  = [Pages.setMessage "Usuario debe tener al menos 3 caracteres"].
Proof.
  destruct (X14_register_page_cannot_register env farm offline "eva" "secret3")
    as (_ & _ & _ & Hserver).
  destruct (X14_register_page_cannot_register env farm offline "ev" "secret3")
    as (_ & Hshort & _).
  split.
  - apply Hserver; simpl; lia.
  - apply Hshort. simpl. lia.
Defined.

(** Ana logs in on the Login page; a stranger does not. *)
Lemma X15_login_page_witness :
  Pages.handleLogin (Pages.backend env farm) "ana" "secret1"
  = [Pages.localStorage_setItem "token" ana_token; Pages.setToken ana_token;
     Pages.navigate "/fincas"] ∧
  Pages.handleLogin (Pages.backend env farm) "eva" "secret3"
  = [Pages.setMessage "Credenciales inválidas"].
Proof.
  destruct (X15_login_page env farm offline "ana" "secret1")
    as (_ & Hana).
  destruct (X15_login_page env farm offline "eva" "secret3")
    as (_ & Heva).
  split.
  - refine (proj1 (proj1 (proj2 (Hana _ _)) ana_token _ _));
      try reflexivity; try discriminate; simpl; lia.
  - refine (proj2 (proj2 (Heva _ _)) _ _);
      try reflexivity; try (simpl; lia).
    simpl. intros [? | [? | []]]; discriminate.
Defined.

(** From "ro" to "ROBLE". *)
Lemma X16_containing_term_narrows_witness :
  Fincas.filteredFincas (Fincas.filteredFincas fincas "ro") "ROBLE"
  = Fincas.filteredFincas fincas "ROBLE".
Proof.
  refine (proj1 (X16_containing_term_narrows fincas "ro" "ROBLE" _)).
  reflexivity.
Defined.

(** The [user] of [animals]. *)
Lemma X17_relations_match_foreign_keys_witness :
  Relations.backed Schema.animals (Relations.one Schema.users "userId" "id")
  = true.
Proof.
  refine (proj1 X17_relations_match_foreign_keys Schema.animals
            Relations.animalsRelations "user" _ _ _).
  - right. by left.
  - by left.
Defined.

(** The first user of the herd is deleted: the foreign keys still hold. *)
Lemma X18_delete_keeps_foreign_keys_witness :
  ∃ db',
    Store.delete herd "users" (Store.has_id (Store.VText "u1")) = Some db' ∧
    Integrity.holds Schema.schema db'.
Proof.
  apply X18_delete_keeps_foreign_keys.
  apply check_sound. by vm_compute.
Defined.

(** The second animal of the herd is deleted: the users stay. *)
Lemma X19_deleting_animals_exactly_witness :
  ∃ db',
    Store.delete herd "animals" (Store.has_id (Store.VInt 2)) = Some db' ∧
    Store.rows db' "users" = Store.rows herd "users".
Proof.
  destruct (X19_deleting_animals_exactly herd (Store.has_id (Store.VInt 2)))
    as (db' & Hrun & _ & _ & Hothers).
  exists db'. split; [exact Hrun |].
  apply Hothers; [discriminate |].
  unfold Integrity.tables_of_an_animal. simpl.
  intros Hin. repeat (destruct Hin as [Hin | Hin]; [discriminate |]). done.
Defined.

(** Ana logs out, and goes back. *)
Lemma X20_logout_keeps_the_session_witness :
  Pages.shown
    (Pages.run
       (Pages.run
          {| Pages.stored_token := Some ana_token;
             Pages.app_token := Some ana_token;
             Pages.location := "/fincas" |}
          Pages.handleLogout)
       [Pages.navigate "/fincas"])
  = Pages.Fincas ana_token.
Proof.
  refine (proj1 (proj2 (proj2 (X20_logout_keeps_the_session
            {| Pages.stored_token := Some ana_token;
               Pages.app_token := Some ana_token;
               Pages.location := "/fincas" |}
            ana_token _ _)))).
  - reflexivity.
  - discriminate.
Defined.

(** A forged token costs the database nothing. *)
Lemma X21_rejected_requests_send_nothing_witness :
  statements (GET_api_animals env farm (request (Some "Bearer forged") JNull))
  = [].
Proof.
  refine (proj1 (proj1 (proj2 (X21_rejected_requests_send_nothing
            GET_api_animals env farm
            (request (Some "Bearer forged") JNull) _)) _)).
  - do 2 right. by left.
  - by right.
Defined.

End MoreOnTheSample.
